(** * aerchain-backend: the text-extraction and scoring core

    A shallow embedding of the AI service module (regex fallback
    extraction, fallback proposal scoring, fallback e-mail template, the
    generative-service adapters) and of the comparison endpoint of the RFP
    controller, followed by the properties the specification states about
    them.

    Conventions of the embedding.
    - A JavaScript string is a [string]: a sequence of code units below 256.
    - A JavaScript number is a [num]: a finite value is an exact rational
      (rounding error and overflow of IEEE doubles are not modelled, and
      [-0] is [0]); [Infinity], [-Infinity] and [NaN] are kept, because
      [Math.min()] and [Math.max()] of an empty spread produce them.
    - [null] and [undefined] in a data field are [None].
    - A function that can throw returns an [outcome]. *)

From Stdlib Require Import ZArith QArith Qround Lqa Lia String Ascii List.
From Stdlib Require Import Sorted Permutation DecimalString.
From stdpp Require Import base list.
Import ListNotations.

Open Scope string_scope.

(* ================================================================== *)
(** ** Numbers *)
(* ================================================================== *)

Module Num.

Inductive num : Type :=
| Fin (q : Q)
| PInf
| NInf
| NaN.

Definition of_Z (z : Z) : num := Fin (inject_Z z).
Definition of_nat (n : nat) : num := of_Z (Z.of_nat n).

(** The integer a number is, when it is one written without a fraction. *)
Definition to_Z (a : num) : option Z :=
  match a with
  | Fin (Qmake z 1) => Some z
  | _ => None
  end.

Definition Qltb (a b : Q) : bool :=
  match Qcompare a b with Lt => true | _ => false end.

Definition Qzero (a : Q) : bool :=
  match Qcompare a 0 with Eq => true | _ => false end.

(** [ToBoolean] on a number: [0] and [NaN] are falsy. *)
Definition truthy (x : num) : bool :=
  match x with
  | Fin q => negb (Qzero q)
  | NaN => false
  | PInf | NInf => true
  end.

(** [a || b] on numbers. *)
Definition or_else (a b : num) : num := if truthy a then a else b.

(** [a < b]. *)
Definition ltb (a b : num) : bool :=
  match a, b with
  | NaN, _ | _, NaN => false
  | Fin x, Fin y => Qltb x y
  | NInf, NInf => false
  | NInf, _ => true
  | _, PInf => match a with PInf => false | _ => true end
  | _, _ => false
  end.

(** [a > b]. *)
Definition gtb (a b : num) : bool := ltb b a.

Definition neg (a : num) : num :=
  match a with
  | Fin x => Fin (- x)
  | PInf => NInf
  | NInf => PInf
  | NaN => NaN
  end.

Definition add (a b : num) : num :=
  match a, b with
  | NaN, _ | _, NaN => NaN
  | Fin x, Fin y => Fin (x + y)
  | PInf, NInf | NInf, PInf => NaN
  | PInf, _ | _, PInf => PInf
  | NInf, _ | _, NInf => NInf
  end.

Definition sub (a b : num) : num := add a (neg b).

(** Sign of a number that is neither [0] nor [NaN]. *)
Definition negative (a : num) : bool := ltb a (Fin 0).

Definition signed_inf (negv : bool) : num := if negv then NInf else PInf.

Definition mul (a b : num) : num :=
  match a, b with
  | NaN, _ | _, NaN => NaN
  | Fin x, Fin y => Fin (x * y)
  | Fin x, _ => if Qzero x then NaN else signed_inf (xorb (negative a) (negative b))
  | _, Fin y => if Qzero y then NaN else signed_inf (xorb (negative a) (negative b))
  | _, _ => signed_inf (xorb (negative a) (negative b))
  end.

Definition div (a b : num) : num :=
  match a, b with
  | NaN, _ | _, NaN => NaN
  | Fin x, Fin y =>
      if Qzero y then (if Qzero x then NaN else signed_inf (negative a))
      else Fin (x / y)
  | Fin _, _ => Fin 0
  | _, Fin _ => signed_inf (xorb (negative a) (negative b))
  | _, _ => NaN
  end.

(** [Math.round]: the nearest integer, a tie going up. *)
Definition round (a : num) : num :=
  match a with
  | Fin x => of_Z (Qfloor (x + (1 # 2)))
  | _ => a
  end.

(** [Math.max(a, b)] and [Math.min(a, b)]. *)
Definition max2 (a b : num) : num :=
  match a, b with
  | NaN, _ | _, NaN => NaN
  | _, _ => if ltb a b then b else a
  end.

Definition min2 (a b : num) : num :=
  match a, b with
  | NaN, _ | _, NaN => NaN
  | _, _ => if ltb b a then b else a
  end.

(** [Math.max(...l)] and [Math.min(...l)]. *)
Definition max_of (l : list num) : num := fold_left max2 l NInf.
Definition min_of (l : list num) : num := fold_left min2 l PInf.

Definition is_fin (a : num) : Prop :=
  match a with Fin _ => True | _ => False end.

(** An integer between [lo] and [hi]. *)
Definition int_between (lo hi : Z) (a : num) : Prop :=
  exists z : Z, a = of_Z z /\ (lo <= z <= hi)%Z.

End Num.
Export Num.

Declare Scope num_scope.
Delimit Scope num_scope with num.
Bind Scope num_scope with num.
Infix "+" := add : num_scope.
Infix "-" := sub : num_scope.
Infix "*" := mul : num_scope.
Infix "/" := div : num_scope.
Infix "<?" := ltb : num_scope.
Infix ">?" := gtb : num_scope.
Infix "||" := or_else : num_scope.
Number Notation num of_Z to_Z : num_scope.

(* ================================================================== *)
(** ** Strings *)
(* ================================================================== *)

Module Text.

Definition chars (s : string) : list ascii := list_ascii_of_string s.
Definition text (l : list ascii) : string := string_of_list_ascii l.

Definition code (c : ascii) : nat := nat_of_ascii c.

Definition is_digit (c : ascii) : bool :=
  (48 <=? code c)%nat && (code c <=? 57)%nat.

(** The class [\s] below code unit 256: tab, line feed, vertical tab, form
    feed, carriage return, space and no-break space. *)
Definition is_space (c : ascii) : bool :=
  ((9 <=? code c)%nat && (code c <=? 13)%nat)
  || (code c =? 32)%nat || (code c =? 160)%nat.

Definition is_upper (c : ascii) : bool :=
  ((65 <=? code c)%nat && (code c <=? 90)%nat)
  || ((192 <=? code c)%nat && (code c <=? 222)%nat && negb (code c =? 215)%nat).

Definition is_lower (c : ascii) : bool :=
  ((97 <=? code c)%nat && (code c <=? 122)%nat)
  || ((224 <=? code c)%nat && (code c <=? 254)%nat && negb (code c =? 247)%nat).

Definition lower (c : ascii) : ascii :=
  if is_upper c then ascii_of_nat (code c + 32) else c.

Definition upper (c : ascii) : ascii :=
  if is_lower c then ascii_of_nat (code c - 32) else c.

Definition eqc (a b : ascii) : bool := (code a =? code b)%nat.

(** [s.toLowerCase()], [s.toUpperCase()]. *)
Definition toLowerCase (s : string) : string := text (map lower (chars s)).
Definition toUpperCase (s : string) : string := text (map upper (chars s)).

Fixpoint starts_with (p s : list ascii) : bool :=
  match p, s with
  | [], _ => true
  | a :: p', b :: s' => eqc a b && starts_with p' s'
  | _ :: _, [] => false
  end.

Fixpoint occurs (p s : list ascii) : bool :=
  starts_with p s || match s with [] => false | _ :: s' => occurs p s' end.

(** [s.includes(p)]. *)
Definition includes (s p : string) : bool := occurs (chars p) (chars s).

(** [s.substring(0, n)], [s.charAt(0)], [s.slice(1)]. *)
Definition substring0 (n : nat) (s : string) : string := text (take n (chars s)).
Definition charAt0 (s : string) : string := text (take 1 (chars s)).
Definition slice1 (s : string) : string := text (drop 1 (chars s)).

(** [ToBoolean] on a string. *)
Definition nonempty (s : string) : bool :=
  match s with EmptyString => false | _ => true end.

(** [l.join(sep)]. *)
Fixpoint join (sep : string) (l : list string) : string :=
  match l with
  | [] => ""
  | [x] => x
  | x :: rest => x ++ sep ++ join sep rest
  end.

Definition digit_val (c : ascii) : Z := Z.of_nat (code c - 48).

Definition decimal (ds : list ascii) : Z :=
  fold_left (fun acc c => (10 * acc + digit_val c)%Z) ds 0%Z.

Fixpoint take_while (p : ascii -> bool) (s : list ascii) : list ascii :=
  match s with
  | c :: s' => if p c then c :: take_while p s' else []
  | [] => []
  end.

Fixpoint drop_while (p : ascii -> bool) (s : list ascii) : list ascii :=
  match s with
  | c :: s' => if p c then drop_while p s' else s
  | [] => []
  end.

(** [parseInt(s)] in radix 10: leading white space, an optional sign, the
    longest run of decimal digits; [NaN] when there is no digit.  Every call
    site passes a string of decimal digits only, so the hexadecimal prefix
    [0x] of the JavaScript function never applies. *)
Definition parseInt (s : string) : num :=
  let body := drop_while is_space (chars s) in
  let '(sign, rest) :=
    match body with
    | c :: r => if eqc c "-" then ((-1)%Z, r)
                else if eqc c "+" then (1%Z, r) else (1%Z, body)
    | [] => (1%Z, body)
    end in
  match take_while is_digit rest with
  | [] => NaN
  | ds => of_Z (sign * decimal ds)
  end.

End Text.
Export Text.

(* ================================================================== *)
(** ** Regular expressions *)
(* ================================================================== *)

(** The fragment of JavaScript regular expressions the program uses: every
    quantifier ([*], [+], [?]) is applied to a single character or
    character class, groups are numbered capture groups and do not nest.
    Matching is the backtracking search of the language: alternatives left
    to right, quantifiers greedy. *)
Module Regex.

Inductive regex : Type :=
| Cls (p : ascii -> bool)
| Star (p : ascii -> bool)
| Plus (p : ascii -> bool)
| Opt (p : ascii -> bool)
| Cat (r1 r2 : regex)
| Alt (r1 r2 : regex)
| Grp (i : nat) (r : regex)
| Eoi
| Emp.

Definition captures := list (nat * list ascii).

(** The remainders left by [p*], longest match first. *)
Fixpoint star_rests (p : ascii -> bool) (s : list ascii) : list (list ascii) :=
  match s with
  | c :: s' => if p c then star_rests p s' ++ [s] else [s]
  | [] => [[]]
  end.

(** All ways to match [r] at the start of [s], in the order the
    backtracking search tries them: the remainder of the input and the
    captures recorded so far. *)
Fixpoint run (r : regex) (s : list ascii) (caps : captures)
  : list (list ascii * captures) :=
  match r with
  | Cls p =>
      match s with
      | c :: s' => if p c then [(s', caps)] else []
      | [] => []
      end
  | Star p => map (fun t => (t, caps)) (star_rests p s)
  | Plus p =>
      match s with
      | c :: s' => if p c then map (fun t => (t, caps)) (star_rests p s') else []
      | [] => []
      end
  | Opt p =>
      match s with
      | c :: s' => if p c then [(s', caps); (s, caps)] else [(s, caps)]
      | [] => [([], caps)]
      end
  | Cat r1 r2 => flat_map (fun '(t, c) => run r2 t c) (run r1 s caps)
  | Alt r1 r2 => run r1 s caps ++ run r2 s caps
  | Grp i r1 =>
      map (fun '(t, c) => (t, (i, take (length s - length t) s) :: c))
          (run r1 s caps)
  | Eoi => match s with [] => [([], caps)] | _ => [] end
  | Emp => [(s, caps)]
  end.

(** Can [r] match the empty string? *)
Fixpoint nullable (r : regex) : bool :=
  match r with
  | Cls _ | Plus _ => false
  | Star _ | Opt _ | Eoi | Emp => true
  | Cat r1 r2 => nullable r1 && nullable r2
  | Alt r1 r2 => nullable r1 || nullable r2
  | Grp _ r1 => nullable r1
  end.

(** A match: [m[0]], the capture groups, and the index it starts at. *)
Record rmatch : Type := {
  whole : string;
  caps_of : captures;
  index : nat
}.

(** [m[i]]; a group that did not take part is [undefined]. *)
Definition group (i : nat) (m : rmatch) : option string :=
  match list_find (fun kv => fst kv = i) (caps_of m) with
  | Some (_, (_, v)) => Some (text v)
  | None => None
  end.

(** A group that is known to take part in every match of its pattern. *)
Definition group_str (i : nat) (m : rmatch) : string :=
  match group i m with Some v => v | None => "" end.

(** The first match of [r] in [s] at or after position [idx], [s] being the
    input from [idx] on. *)
Fixpoint search (r : regex) (s : list ascii) (idx : nat) : option rmatch :=
  match run r s [] with
  | (rest, c) :: _ =>
      Some {| whole := text (take (length s - length rest) s);
              caps_of := c; index := idx |}
  | [] =>
      match s with
      | [] => None
      | _ :: s' => search r s' (S idx)
      end
  end.

(** [s.match(r)] for a pattern without the [g] flag. *)
Definition str_match (r : regex) (s : string) : option rmatch :=
  search r (chars s) 0.

(** The loop [while ((m = r.exec(s)) !== null) { ... }] for a pattern with
    the [g] flag and [lastIndex = 0]: the matches in order.  [skip] counts
    the code units of the previous match still to pass.  A match of length
    zero leaves [lastIndex] where it is, so the loop never ends: [None]. *)
Fixpoint exec_loop (r : regex) (s : list ascii) (idx skip : nat)
  : option (list rmatch) :=
  match skip with
  | S k =>
      match s with
      | [] => Some []
      | _ :: s' => exec_loop r s' (S idx) k
      end
  | O =>
      match run r s [] with
      | (rest, c) :: _ =>
          let n := (length s - length rest)%nat in
          let m := {| whole := text (take n s); caps_of := c; index := idx |} in
          match n, s with
          | S k, _ :: s' =>
              match exec_loop r s' (S idx) k with
              | Some ms => Some (m :: ms)
              | None => None
              end
          | _, _ => None
          end
      | [] =>
          match s with
          | [] => Some []
          | _ :: s' => exec_loop r s' (S idx) 0
          end
      end
  end.

Definition exec_all (r : regex) (s : string) : option (list rmatch) :=
  exec_loop r (chars s) 0 0.

(** [s.replace(r, repl)] without the [g] flag: the first match is replaced. *)
Definition replace_first (r : regex) (repl s : string) : string :=
  match str_match r s with
  | Some m =>
      text (take (index m) (chars s)) ++ repl
      ++ text (drop (index m + String.length (whole m)) (chars s))
  | None => s
  end.

(** [s.replace(r, repl)] with the [g] flag.  After a match of length zero
    the search moves on by one code unit. *)
Fixpoint replace_loop (r : regex) (repl : list ascii) (s : list ascii)
  (skip : nat) : list ascii :=
  match s with
  | [] =>
      match skip, run r [] [] with
      | O, _ :: _ => repl
      | _, _ => []
      end
  | c :: s' =>
      match skip with
      | S k => replace_loop r repl s' k
      | O =>
          match run r s [] with
          | (rest, _) :: _ =>
              match (length s - length rest)%nat with
              | O => repl ++ c :: replace_loop r repl s' 0
              | S k => repl ++ replace_loop r repl s' k
              end
          | [] => c :: replace_loop r repl s' 0
          end
      end
  end.

Definition replace_all (r : regex) (repl s : string) : string :=
  text (replace_loop r (chars repl) (chars s) 0).

(** *** Pattern syntax *)

Definition digit : ascii -> bool := is_digit.
Definition space : ascii -> bool := is_space.
Definition ch (c : ascii) : ascii -> bool := eqc c.
(** A literal character under the [i] flag. *)
Definition chi (c : ascii) : ascii -> bool := fun x => eqc (lower c) (lower x).
Definition either (p q : ascii -> bool) : ascii -> bool := fun x => p x || q x.

Fixpoint cat_all (l : list regex) : regex :=
  match l with
  | [] => Emp
  | [r] => r
  | r :: rest => Cat r (cat_all rest)
  end.

Fixpoint alt_all (l : list regex) : regex :=
  match l with
  | [] => Emp
  | [r] => r
  | r :: rest => Alt r (alt_all rest)
  end.

(** A literal word under the [i] flag. *)
Definition wordi (s : string) : regex := cat_all (map (fun c => Cls (chi c)) (chars s)).

(** [words?] under the [i] flag: the word with an optional final [s]. *)
Definition plural (s : string) : regex := Cat (wordi s) (Opt (chi "s")).

End Regex.
Export Regex.

(* ================================================================== *)
(** ** Values and outcomes *)
(* ================================================================== *)

(** A value as a request body or a stored field can hold it. *)
Inductive value : Type :=
| VUndefined
| VNull
| VBool (b : bool)
| VNum (n : num)
| VStr (s : string)
| VObj.

(** What a call does: it returns, it throws (for an [async] function: the
    promise is rejected), or it never finishes. *)
Inductive outcome (A : Type) : Type :=
| Returned (a : A)
| Threw (e : string)
| Diverged.
Arguments Returned {A} a.
Arguments Threw {A} e.
Arguments Diverged {A}.

#[global] Instance outcome_bind : MBind outcome := fun A B k o =>
  match o with
  | Returned a => k a
  | Threw e => Threw e
  | Diverged => Diverged
  end.

Definition of_loop {A : Type} (o : option A) : outcome A :=
  match o with Some a => Returned a | None => Diverged end.

(** The message of the [TypeError] for a method call on a value that has no
    such method. *)
Definition type_error : string := "TypeError".

(** What the program takes from its host: the conversion of a number to a
    string, [String(n)] and [n.toLocaleString()] (which depends on the
    locale). *)
Class Host : Type := {
  numToString : num -> string;
  toLocaleString : num -> string
}.

(* ================================================================== *)
(** ** The regex extraction engine: [fallbackParseRFP] *)
(* ================================================================== *)

Module Extract.

Record Item : Type := {
  name : string;
  quantity : num;
  specifications : string
}.

Record Requirements : Type := {
  paymentTerms : option string;
  warranty : option string;
  deliveryLocation : option string;
  additionalTerms : list string
}.

Record ExtractionResult : Type := {
  title : string;
  description : string;
  budget : option num;
  currency : string;
  deliveryDays : option num;
  items : list Item;
  requirements : Requirements
}.

Definition set_specifications (v : string) (it : Item) : Item :=
  {| name := name it; quantity := quantity it; specifications := v |}.

Module Patterns.

Definition quote : ascii := ascii_of_nat 34.

(** [/\$[\d,]+|\d+[\d,]*\s*(dollars|usd)/i] *)
Definition budget : regex :=
  Alt (Cat (Cls (ch "$")) (Plus (either digit (ch ","))))
      (cat_all [Plus digit; Star (either digit (ch ",")); Star space;
                Grp 1 (Alt (wordi "dollars") (wordi "usd"))]).

(** [/[$,\s]|dollars|usd/gi] *)
Definition budget_noise : regex :=
  alt_all [Cls (either (ch "$") (either (ch ",") space));
           wordi "dollars"; wordi "usd"].

(** [/(\d+)\s*(days?|weeks?)/i] *)
Definition delivery : regex :=
  cat_all [Grp 1 (Plus digit); Star space;
           Grp 2 (Alt (plural "day") (plural "week"))].

(** [/(\d+)\s*(k1|k2|...)/gi] *)
Definition counted (keywords : list regex) : regex :=
  cat_all [Grp 1 (Plus digit); Star space; Grp 2 (alt_all keywords)].

Definition itemPatterns : list regex :=
  [ counted [plural "laptop"; plural "computer"; plural "pc"; plural "machine"];
    counted [plural "monitor"; plural "display"; plural "screen"];
    counted [plural "keyboard"; wordi "mice"; wordi "mouse"];
    counted [plural "chair"; plural "desk"; plural "table"];
    counted [plural "phone"; plural "mobile"; plural "handset"];
    counted [plural "printer"; plural "scanner"];
    counted [plural "server"; plural "router"; plural "switche"] ].

(** [/s$/] *)
Definition final_s : regex := Cat (Cls (ch "s")) Eoi.

(** [/(\d+)\s*GB\s*RAM/i] *)
Definition ram : regex :=
  cat_all [Grp 1 (Plus digit); Star space; wordi "GB"; Star space; wordi "RAM"].

(** [/(\d+)[- ]?(inch|Q)/i], with [Q] the double quote character. *)
Definition screen : regex :=
  cat_all [Grp 1 (Plus digit); Opt (either (ch "-") (ch " "));
           Grp 2 (Alt (wordi "inch") (Cls (ch quote)))].

(** [/(\d+)\s*(year|month)s?\s*warranty/i] *)
Definition warranty : regex :=
  cat_all [Grp 1 (Plus digit); Star space;
           Grp 2 (Alt (wordi "year") (wordi "month")); Opt (chi "s");
           Star space; wordi "warranty"].

End Patterns.

(** The item pushed for one match of an item pattern. *)
Definition item_of_match (m : rmatch) : Item :=
  let stem := replace_first Patterns.final_s "" (group_str 2 m) in
  {| name := toUpperCase (charAt0 stem) ++ slice1 stem;
     quantity := parseInt (group_str 1 m);
     specifications := "" |}.

(** [itemPatterns.forEach(pattern => { while (...) items.push(...) })] *)
Fixpoint collect_items (patterns : list regex) (userInput : string)
  (items : list Item) : outcome (list Item) :=
  match patterns with
  | [] => Returned items
  | pattern :: rest =>
      ms ← of_loop (exec_all pattern userInput);
      collect_items rest userInput (items ++ map item_of_match ms)
  end.

Definition is_monitor (i : Item) : Prop :=
  includes (toLowerCase (name i)) "monitor" = true.

#[global] Instance is_monitor_dec (i : Item) : Decision (is_monitor i) :=
  decide (includes (toLowerCase (name i)) "monitor" = true).

(** [${n} ${unit}${parseInt(n) > 1 ? 's' : ''} warranty] *)
Definition warranty_text (m : rmatch) : string :=
  group_str 1 m ++ " " ++ group_str 2 m
  ++ (if (parseInt (group_str 1 m) >? 1)%num then "s" else "")
  ++ " warranty".

Definition placeholder_item (userInput : string) : Item :=
  {| name := "Items as specified"; quantity := 1;
     specifications := substring0 100 userInput |}.

Definition fallbackParseRFP_string (userInput : string)
  : outcome ExtractionResult :=
  let input := toLowerCase userInput in
  (* budget *)
  let budgetMatch := str_match Patterns.budget userInput in
  let budget :=
    match budgetMatch with
    | Some m => Some (parseInt (replace_all Patterns.budget_noise "" (whole m)))
    | None => None
    end in
  (* delivery days *)
  let deliveryMatch := str_match Patterns.delivery input in
  let deliveryDays :=
    match deliveryMatch with
    | Some m =>
        let d := parseInt (group_str 1 m) in
        Some (if includes (group_str 2 m) "week" then (d * 7)%num else d)
    | None => None
    end in
  (* items with quantities *)
  items ← collect_items Patterns.itemPatterns userInput [];
  (* RAM specification: attached to the first item *)
  let ramMatch := str_match Patterns.ram userInput in
  let items :=
    match ramMatch with
    | Some m =>
        if (0 <? length items)%nat
        then alter (set_specifications (group_str 1 m ++ "GB RAM")) 0%nat items
        else items
    | None => items
    end in
  (* screen size: attached to the first monitor *)
  let screenMatch := str_match Patterns.screen userInput in
  let items :=
    match screenMatch with
    | Some m =>
        match list_find is_monitor items with
        | Some (i, _) =>
            alter (set_specifications (group_str 1 m ++ " inch")) i items
        | None => items
        end
    | None => items
    end in
  (* payment terms *)
  let paymentTerms :=
    if includes input "net 30" then Some "Net 30"
    else if includes input "net 60" then Some "Net 60"
    else if includes input "net 15" then Some "Net 15"
    else if includes input "immediate" || includes input "advance"
         then Some "Advance Payment"
    else None in
  (* warranty *)
  let warrantyMatch := str_match Patterns.warranty input in
  let warranty :=
    match warrantyMatch with
    | Some m => Some (warranty_text m)
    | None => None
    end in
  (* title *)
  let itemNames := join " and " (map name items) in
  let title :=
    if (0 <? length items)%nat then itemNames ++ " Procurement"
    else "Procurement Request" in
  Returned
    {| title := title;
       description := substring0 200 userInput;
       budget := budget;
       currency := "USD";
       deliveryDays := deliveryDays;
       items := if (0 <? length items)%nat then items
                else [placeholder_item userInput];
       requirements :=
         {| paymentTerms := paymentTerms;
            warranty := warranty;
            deliveryLocation := None;
            additionalTerms := [] |} |}.

(** [fallbackParseRFP(userInput)]: the first statement,
    [userInput.toLowerCase()], throws a [TypeError] unless the argument is
    a string. *)
Definition fallbackParseRFP (userInput : value) : outcome ExtractionResult :=
  match userInput with
  | VStr s => fallbackParseRFP_string s
  | _ => Threw type_error
  end.

End Extract.


(* ================================================================== *)
(** ** Vendor replies: [fallbackParseProposal] *)
(* ================================================================== *)

Module Proposals.

Record ItemPricing : Type := {
  itemName : string;
  quantity : num;
  unitPrice : num;
  itemTotal : num;
  itemNotes : string
}.

(** The [parsedData] of a proposal. *)
Record ProposalExtraction : Type := {
  totalPrice : option num;
  itemPricing : list ItemPricing;
  deliveryTimeline : option string;
  deliveryDays : option num;
  paymentTerms : option string;
  warranty : option string;
  validityPeriod : option string;
  conditions : list string;
  notes : option string
}.

(** [/\$[\d,]+\.?\d*/g] *)
Definition price : regex :=
  cat_all [Cls (ch "$"); Plus (either digit (ch ",")); Opt (ch "."); Star digit].

(** [/[$,]/g] *)
Definition price_noise : regex := Cls (either (ch "$") (ch ",")).

(** [/(\d+)\s*(days?|weeks?|business days?)/i] *)
Definition delivery : regex :=
  cat_all [Grp 1 (Plus digit); Star space;
           Grp 2 (alt_all [plural "day"; plural "week"; plural "business day"])].

(** [s.match(r)] for a pattern with the [g] flag: every match, left to
    right; the search moves on by one code unit after a match of length
    zero.  (The caller turns [null], for no match, into the empty array.) *)
Fixpoint match_loop (r : regex) (s : list ascii) (skip : nat) : list string :=
  match s with
  | [] =>
      match skip, run r [] [] with
      | O, _ :: _ => [""]
      | _, _ => []
      end
  | _ :: s' =>
      match skip with
      | S k => match_loop r s' k
      | O =>
          match run r s [] with
          | (rest, _) :: _ =>
              let n := (length s - length rest)%nat in
              text (take n s) :: match_loop r s' (n - 1)
          | [] => match_loop r s' 0
          end
      end
  end.

Definition match_all (r : regex) (s : string) : list string :=
  match_loop r (chars s) 0.

(** [parseFloat(s)] on the strings it is applied to here: decimal digits
    with at most one point among them.  [NaN] when no digit starts the
    number. *)
Definition parseFloat (s : string) : num :=
  let ip := take_while is_digit (chars s) in
  let rest := drop_while is_digit (chars s) in
  let fp :=
    match rest with
    | c :: r => if eqc c "." then take_while is_digit r else []
    | [] => []
    end in
  match ip, fp with
  | [], [] => NaN
  | _, _ =>
      Fin (inject_Z (decimal ip)
           + inject_Z (decimal fp) / inject_Z (10 ^ Z.of_nat (length fp)))
  end.

Definition fallbackParseProposal_string `{Host} (emailBody : string)
  : ProposalExtraction :=
  let text := toLowerCase emailBody in
  (* prices *)
  let priceMatches := match_all price emailBody in
  let prices := map (fun p => parseFloat (replace_all price_noise "" p)) priceMatches in
  let totalPrice :=
    if (0 <? length prices)%nat then Some (max_of prices) else None in
  (* delivery *)
  let deliveryMatch := str_match delivery text in
  let deliveryDays :=
    match deliveryMatch with
    | Some m =>
        let d := parseInt (group_str 1 m) in
        Some (if includes (group_str 2 m) "week" then (d * 7)%num else d)
    | None => None
    end in
  (* payment terms *)
  let paymentTerms :=
    if includes text "net 30" then Some "Net 30"
    else if includes text "net 60" then Some "Net 60"
    else if includes text "net 15" then Some "Net 15"
    else None in
  (* warranty *)
  let warrantyMatch := str_match Extract.Patterns.warranty text in
  let warranty :=
    match warrantyMatch with
    | Some m => Some (Extract.warranty_text m)
    | None => None
    end in
  {| totalPrice := totalPrice;
     itemPricing := [];
     deliveryTimeline :=
       match deliveryDays with
       | Some d => if truthy d then Some (numToString d ++ " days") else None
       | None => None
       end;
     deliveryDays := deliveryDays;
     paymentTerms := paymentTerms;
     warranty := warranty;
     validityPeriod := None;
     conditions := [];
     notes := Some "Parsed using fallback parser" |}.

(** [fallbackParseProposal(emailBody)]: [emailBody.toLowerCase()] throws a
    [TypeError] unless the argument is a string. *)
Definition fallbackParseProposal `{Host} (emailBody : value)
  : outcome ProposalExtraction :=
  match emailBody with
  | VStr s => Returned (fallbackParseProposal_string s)
  | _ => Threw type_error
  end.

End Proposals.

(* ================================================================== *)
(** ** Stored documents *)
(* ================================================================== *)

(** The documents of the persistent store, as the core reads them.  A
    stored number is finite. *)
Module Docs.

Record Item : Type := {
  name : string;
  quantity : option Q;
  specifications : option string
}.

Record Requirements : Type := {
  paymentTerms : option string;
  warranty : option string
}.

Record RFP : Type := {
  title : string;
  description : option string;
  budget : option Q;
  deliveryDays : option Q;
  items : option (list Item);
  requirements : option Requirements
}.

(** A vendor, populated with [name email company]. *)
Record Vendor : Type := {
  _id : string;
  vendorName : option string
}.

(** The [vendorId] of a proposal: the populated vendor, the bare identifier,
    or [null] when the vendor no longer exists. *)
Inductive VendorRef : Type :=
| Populated (v : Vendor)
| Bare (id : string)
| Missing.

(** The fields of [parsedData] the comparison reads. *)
Record ParsedData : Type := {
  totalPrice : option Q;
  pdDeliveryDays : option Q;
  pdWarranty : option string
}.

Record Proposal : Type := {
  vendorId : VendorRef;
  parsedData : option ParsedData
}.

(** [ToBoolean] of an optional string field. *)
Definition present (o : option string) : bool :=
  match o with Some s => nonempty s | None => false end.

(** [o || d] for an optional number. *)
Definition num_or (o : option Q) (d : num) : num :=
  match o with Some q => (Fin q || d)%num | None => d end.

(** An optional number read as a number ([undefined] is [NaN]). *)
Definition to_num (o : option Q) : num :=
  match o with Some q => Fin q | None => NaN end.

(** [ToBoolean] of an optional number. *)
Definition has_num (o : option Q) : bool :=
  match o with Some q => truthy (Fin q) | None => false end.

End Docs.

(* ================================================================== *)
(** ** The comparison engine: [fallbackCompareProposals] *)
(* ================================================================== *)

Module Compare.
Import Docs.

Record VendorScore : Type := {
  vendorId : option string;
  vendorName : string;
  priceScore : num;
  deliveryScore : num;
  termsScore : num;
  overallScore : num;
  pros : list string;
  cons : list string;
  summary : string
}.

Record Comparison : Type := {
  cSummary : string;
  priceAnalysis : string;
  deliveryAnalysis : string;
  termsAnalysis : string
}.

Record Recommendation : Type := {
  recommendedVendorId : option string;
  recommendedVendorName : string;
  reasoning : string;
  risks : list string;
  alternativeOption : option string
}.

Record Analysis : Type := {
  comparison : Comparison;
  vendorScores : list VendorScore;
  recommendation : Recommendation
}.

(** [p.parsedData?.totalPrice], [p.parsedData?.deliveryDays],
    [p.parsedData?.warranty]. *)
Definition total (p : Proposal) : option Q :=
  match parsedData p with Some d => totalPrice d | None => None end.
Definition days (p : Proposal) : option Q :=
  match parsedData p with Some d => pdDeliveryDays d | None => None end.
Definition warranty_of (p : Proposal) : option string :=
  match parsedData p with Some d => pdWarranty d | None => None end.

(** [p.vendorId?.name || 'Unknown Vendor'] *)
Definition name_of (p : Proposal) : string :=
  match Docs.vendorId p with
  | Populated v =>
      match Docs.vendorName v with
      | Some n => if nonempty n then n else "Unknown Vendor"
      | None => "Unknown Vendor"
      end
  | _ => "Unknown Vendor"
  end.

(** [p.vendorId?._id || p.vendorId] *)
Definition id_of (p : Proposal) : option string :=
  match Docs.vendorId p with
  | Populated v => Some (_id v)
  | Bare id => Some id
  | Missing => None
  end.

(** [Math.max(...proposals.map(pr => pr.parsedData?.totalPrice || 0)) || 1] *)
Definition maxPrice (proposals : list Proposal) : num :=
  (max_of (map (fun pr => num_or (total pr) 0) proposals) || 1)%num.

(** [Math.min(...proposals.filter(pr => pr.parsedData?.totalPrice)
                          .map(pr => pr.parsedData.totalPrice)) || 0] *)
Definition minPrice (proposals : list Proposal) : num :=
  (min_of (map (fun pr => to_num (total pr))
               (List.filter (fun pr => has_num (total pr)) proposals)) || 0)%num.

(** [Math.max(0, Math.min(100, x))] *)
Definition clamp (x : num) : num := max2 0 (min2 100 x).

(** [[...].filter(Boolean)] on entries that are a non-empty string or [null]. *)
Definition filter_Boolean (l : list (option string)) : list string :=
  omap id l.

(** The local constants of the callback of [proposals.map]: [price],
    [delivery], and the scores before the returned object clamps them. *)
Definition price (p : Proposal) : num := num_or (total p) 0.
Definition delivery (p : Proposal) : num := num_or (days p) 999.

Definition rawPriceScore (proposals : list Proposal) (p : Proposal) : num :=
  let price := price p in
  let maxPrice := maxPrice proposals in
  let minPrice := minPrice proposals in
  if (price >? 0)%num
  then round (100 - ((price - minPrice) / ((maxPrice - minPrice) || 1)) * 50)%num
  else 50%num.

Definition rawDeliveryScore (p : Proposal) : num :=
  let delivery := delivery p in
  if (delivery <? 999)%num
  then round (100 - (delivery / 60) * 50)%num
  else 50%num.

Definition rawTermsScore (p : Proposal) : num :=
  if present (warranty_of p) then 80%num else 60%num.

Definition rawOverallScore (proposals : list Proposal) (p : Proposal) : num :=
  round ((rawPriceScore proposals p + rawDeliveryScore p + rawTermsScore p) / 3)%num.

(** The callback of [proposals.map]. *)
Definition score `{Host} (proposals : list Proposal) (p : Proposal) : VendorScore :=
  let price := price p in
  let delivery := delivery p in
  let vendorName := name_of p in
  let vendorId := id_of p in
  {| vendorId := vendorId;
     vendorName := vendorName;
     priceScore := clamp (rawPriceScore proposals p);
     deliveryScore := clamp (rawDeliveryScore p);
     termsScore := rawTermsScore p;
     overallScore := clamp (rawOverallScore proposals p);
     pros := filter_Boolean
       [ Some (if (price >? 0)%num
               then "Quoted price: $" ++ toLocaleString price
               else "Price provided");
         Some (if (delivery <? 999)%num
               then "Delivery in " ++ numToString delivery ++ " days"
               else "Delivery timeline specified");
         match warranty_of p with
         | Some w => if nonempty w then Some ("Warranty: " ++ w) else None
         | None => None
         end ];
     cons := filter_Boolean
       [ if negb (has_num (total p)) then Some "Price not clearly specified" else None;
         if negb (present (warranty_of p)) then Some "No warranty information" else None ];
     summary :=
       vendorName ++ " offers "
       ++ (if (price >? 0)%num then "$" ++ toLocaleString price
           else "competitive pricing")
       ++ " with "
       ++ (if (delivery <? 999)%num then numToString delivery ++ " days"
           else "flexible")
       ++ " delivery." |}.

(** [Array.prototype.sort(cmp)]: a stable sort.  [cmp x y > 0] puts [x]
    after [y]; otherwise the element that came first stays first. *)
Fixpoint insert {A : Type} (cmp : A -> A -> num) (x : A) (l : list A) : list A :=
  match l with
  | [] => [x]
  | y :: l' => if (cmp x y >? 0)%num then y :: insert cmp x l' else x :: l
  end.

Definition sort {A : Type} (cmp : A -> A -> num) (l : list A) : list A :=
  fold_right (insert cmp) [] l.

(** [(a, b) => b.overallScore - a.overallScore] *)
Definition by_overall (a b : VendorScore) : num :=
  (overallScore b - overallScore a)%num.

Definition fallbackCompareProposals `{Host} (rfp : RFP) (proposals : list Proposal)
  : outcome Analysis :=
  let vendorScores := map (score proposals) proposals in
  let vendorScores := sort by_overall vendorScores in
  match vendorScores !! 0%nat with
  | None => Threw type_error     (* [recommended] is [undefined] *)
  | Some recommended =>
      Returned
        {| comparison :=
             {| cSummary := "Compared " ++ numToString (of_nat (length proposals))
                            ++ " vendor proposals based on price, delivery, and terms.";
                priceAnalysis := "Pricing compared based on total quoted amounts.";
                deliveryAnalysis := "Delivery timelines compared based on stated delivery days.";
                termsAnalysis := "Terms evaluated based on warranty and payment conditions." |};
           vendorScores := vendorScores;
           recommendation :=
             {| recommendedVendorId := vendorId recommended;
                recommendedVendorName := vendorName recommended;
                reasoning :=
                  vendorName recommended ++ " has the highest overall score of "
                  ++ numToString (overallScore recommended)
                  ++ "/100 based on price competitiveness, delivery timeline, and terms.";
                risks := ["This is a simplified analysis. Manual review recommended."];
                alternativeOption :=
                  if (1 <? length vendorScores)%nat
                  then match vendorScores !! 1%nat with
                       | Some second => Some (vendorName second ++ " as second choice")
                       | None => None
                       end
                  else None |} |}
  end.

End Compare.

(* ================================================================== *)
(** ** E-mail templating: [fallbackGenerateEmail] *)
(* ================================================================== *)

Module Email.
Import Docs.

Definition nl : string := String (ascii_of_nat 10) "".

(** The bullet of the template (U+2022), as its UTF-8 bytes. *)
Definition bullet : string := "•".

Record Mail : Type := { subject : string; body : string }.

(** [`${item.quantity}`] *)
Definition show_quantity `{Host} (q : option Q) : string :=
  match q with Some v => numToString (Fin v) | None => "null" end.

(** The callback of [rfp.items?.map]. *)
Definition item_line `{Host} (item : Item) : string :=
  "  " ++ bullet ++ " " ++ name item ++ ": Quantity " ++ show_quantity (quantity item)
  ++ match specifications item with
     | Some sp => if nonempty sp then " (" ++ sp ++ ")" else ""
     | None => ""
     end.

(** [rfp.items?.map(...).join('\n') || '  • As per requirements'] *)
Definition itemsList `{Host} (rfp : RFP) : string :=
  let joined :=
    match items rfp with
    | Some l => Some (join nl (map item_line l))
    | None => None
    end in
  if present joined
  then match joined with Some j => j | None => "" end
  else "  " ++ bullet ++ " As per requirements".

Definition or_text (o : option string) (d : string) : string :=
  match o with Some s => if nonempty s then s else d | None => d end.

Definition fallbackGenerateEmail `{Host} (rfp : RFP) (vendorName : string) : Mail :=
  let itemsList := itemsList rfp in
  let subject := "Request for Proposal: " ++ title rfp in
  let body :=
    "Dear " ++ vendorName ++ "," ++ nl
    ++ nl
    ++ "We are pleased to invite you to submit a proposal for the following procurement requirement:" ++ nl
    ++ nl
    ++ "PROJECT: " ++ title rfp ++ nl
    ++ (if present (description rfp)
        then nl ++ "DESCRIPTION: " ++ or_text (description rfp) ""
        else "") ++ nl
    ++ nl
    ++ "ITEMS REQUIRED:" ++ nl
    ++ itemsList ++ nl
    ++ nl
    ++ "BUDGET: "
    ++ (if has_num (budget rfp)
        then "$" ++ toLocaleString (to_num (budget rfp))
        else "Open to competitive quotes") ++ nl
    ++ "DELIVERY REQUIREMENT: "
    ++ (if has_num (deliveryDays rfp)
        then "Within " ++ numToString (to_num (deliveryDays rfp)) ++ " days"
        else "To be discussed") ++ nl
    ++ "PAYMENT TERMS: "
    ++ or_text (match requirements rfp with Some r => paymentTerms r | None => None end)
               "Standard terms" ++ nl
    ++ "WARRANTY: "
    ++ or_text (match requirements rfp with Some r => warranty r | None => None end)
               "Standard warranty expected" ++ nl
    ++ nl
    ++ "Please provide:" ++ nl
    ++ "1. Itemized pricing for all items" ++ nl
    ++ "2. Total cost including any applicable taxes" ++ nl
    ++ "3. Delivery timeline" ++ nl
    ++ "4. Warranty terms" ++ nl
    ++ "5. Payment terms" ++ nl
    ++ "6. Any conditions or special requirements" ++ nl
    ++ nl
    ++ "We look forward to receiving your proposal." ++ nl
    ++ nl
    ++ "Best regards," ++ nl
    ++ "Procurement Team" in
  {| subject := subject; body := body |}.

(** The lines of a text: the pieces between line feeds. *)
Fixpoint lines_from (cur : list ascii) (s : list ascii) : list string :=
  match s with
  | [] => [text (rev cur)]
  | c :: s' =>
      if eqc c (ascii_of_nat 10) then text (rev cur) :: lines_from [] s'
      else lines_from (c :: cur) s'
  end.

Definition lines (s : string) : list string := lines_from [] (chars s).

(** An item line of a body: a line that starts with the bullet prefix. *)
Definition is_item_line (l : string) : bool :=
  starts_with (chars ("  " ++ bullet ++ " ")) (chars l).

Definition item_lines (body : string) : list string :=
  List.filter (fun l => is_item_line l) (lines body).

(** A text without a line feed. *)
Definition single_line (s : string) : bool :=
  forallb (fun c => negb (eqc c (ascii_of_nat 10))) (chars s).

End Email.

(* ================================================================== *)
(** ** The generative parser adapter *)
(* ================================================================== *)

Module Adapter.
Import Docs.

(** A call to the text-completion service.  The instruction text, the model
    name, the temperature and the JSON-only response mode are fixed for
    each kind of call; what varies is what the caller passed in. *)
Inductive call : Type :=
| ExtractRFP (userInput : value)
| ExtractProposal (emailBody emailSubject rfpContext : value)
| CompareAll (rfp : RFP) (proposals : list Proposal).

(** The service: [JSON.parse], which returns a value or throws with a
    message, and the reading of [data.vendorScores] from such a value,
    which can throw too. *)
Class Service : Type := {
  json : Type;
  JSON_parse : string -> json + string;
  vendorScores_of : json -> outcome (list Compare.VendorScore)
}.

(** A configured client, [openai]: the text of
    [response.choices[0].message.content], or the error thrown on the
    way to it. *)
Definition client : Type := call -> outcome string.

Inductive payload `{Service} (D : Type) : Type :=
| FromService (j : json)
| FromFallback (d : D).
Arguments FromService {_ D} j.
Arguments FromFallback {_ D} d.

(** The uniform envelope [{success, data?, usedFallback?, error?}]. *)
Record envelope `{Service} (D : Type) : Type := {
  success : bool;
  data : option (payload D);
  usedFallback : option bool;
  error : option string
}.
Arguments success {_ D} e.
Arguments data {_ D} e.
Arguments usedFallback {_ D} e.
Arguments error {_ D} e.

Definition fell_back `{Service} {D : Type} (d : D) : envelope D :=
  {| success := true; data := Some (FromFallback d);
     usedFallback := Some true; error := None |}.

Definition answered `{Service} {D : Type} (j : json) : envelope D :=
  {| success := true; data := Some (FromService j);
     usedFallback := None; error := None |}.

Definition failed `{Service} {D : Type} (e : string) : envelope D :=
  {| success := false; data := None; usedFallback := None; error := Some e |}.

(** [JSON.parse((await openai.chat.completions.create(...)).choices[0].message.content)] *)
Definition complete `{Service} (c : client) (q : call) : outcome json :=
  content ← c q;
  match JSON_parse content with
  | inl j => Returned j
  | inr msg => Threw msg
  end.

(** An asynchronous operation: the calls made to the service, and how the
    operation ends. *)
Definition async (A : Type) : Type := (list call * outcome A)%type.

Definition parseRFPFromNaturalLanguage `{Service} (openai : option client)
  (userInput : value) : async (envelope Extract.ExtractionResult) :=
  match openai with
  | None =>
      ([], fallbackData ← Extract.fallbackParseRFP userInput;
           Returned (fell_back fallbackData))
  | Some c =>
      ([ExtractRFP userInput],
       match complete c (ExtractRFP userInput) with
       | Returned parsedData => Returned (answered parsedData)
       | Threw message =>
           match Extract.fallbackParseRFP userInput with
           | Returned fallbackData => Returned (fell_back fallbackData)
           | Threw _ => Returned (failed message)
           | Diverged => Diverged
           end
       | Diverged => Diverged
       end)
  end.

Definition parseVendorProposal `{Host} `{Service} (openai : option client)
  (emailBody emailSubject rfpContext : value)
  : async (envelope Proposals.ProposalExtraction) :=
  match openai with
  | None =>
      ([], fallbackData ← Proposals.fallbackParseProposal emailBody;
           Returned (fell_back fallbackData))
  | Some c =>
      ([ExtractProposal emailBody emailSubject rfpContext],
       match complete c (ExtractProposal emailBody emailSubject rfpContext) with
       | Returned parsedData => Returned (answered parsedData)
       | Threw _ =>
           fallbackData ← Proposals.fallbackParseProposal emailBody;
           Returned (fell_back fallbackData)
       | Diverged => Diverged
       end)
  end.

(** [p.vendorId._id], as [proposalDetails] reads it: a [TypeError] when the
    vendor is [null]. *)
Definition vendor_id_strict (p : Proposal) : outcome string :=
  match Docs.vendorId p with
  | Populated v => Returned (_id v)
  | Bare id => Returned id
  | Missing => Threw type_error
  end.

Fixpoint proposalDetails (proposals : list Proposal) : outcome (list string) :=
  match proposals with
  | [] => Returned []
  | p :: rest =>
      i ← vendor_id_strict p;
      ids ← proposalDetails rest;
      Returned (i :: ids)
  end.

Definition compareProposals `{Host} `{Service} (openai : option client)
  (rfp : RFP) (proposals : list Proposal) : async (envelope Compare.Analysis) :=
  match openai with
  | None =>
      ([], fallbackAnalysis ← Compare.fallbackCompareProposals rfp proposals;
           Returned (fell_back fallbackAnalysis))
  | Some c =>
      match proposalDetails proposals with
      | Returned _ =>
          ([CompareAll rfp proposals],
           match complete c (CompareAll rfp proposals) with
           | Returned analysis => Returned (answered analysis)
           | Threw _ =>
               fallbackAnalysis ← Compare.fallbackCompareProposals rfp proposals;
               Returned (fell_back fallbackAnalysis)
           | Diverged => Diverged
           end)
      | Threw e => ([], Threw e)
      | Diverged => ([], Diverged)
      end
  end.

End Adapter.

(* ================================================================== *)
(** ** The comparison endpoint: [GET /api/rfps/:id/compare] *)
(* ================================================================== *)

Module Controller.
Import Docs Adapter.

(** The persistent store, as the endpoint uses it. *)
Record Store : Type := {
  (** [RFP.findById(id)] *)
  findById : string -> outcome (option RFP);
  (** [Proposal.find({rfpId, isParsingComplete: true}).populate('vendorId', ...)] *)
  findParsed : string -> outcome (list Proposal);
  (** [Proposal.findOneAndUpdate({rfpId, vendorId}, {scores, status})] *)
  findOneAndUpdate : string -> Compare.VendorScore -> outcome unit;
  (** [rfp.status = s; rfp.save()] *)
  save : string -> string -> outcome unit
}.

(** What the endpoint does to the outside, in order. *)
Inductive event : Type :=
| ReadRFP (id : string)
| ReadProposals (id : string)
| InvokeEngine (rfp : RFP) (proposals : list Proposal)
| CallService (c : call)
| WriteScores (id : string) (v : Compare.VendorScore)
| WriteStatus (id : string) (status : string).

Definition io (A : Type) : Type := (list event * outcome A)%type.

#[global] Instance io_bind : MBind io := fun A B k m =>
  match m with
  | (t, Returned a) => let '(t', r) := k a in ((t ++ t')%list, r)
  | (t, Threw e) => (t, Threw e)
  | (t, Diverged) => (t, Diverged)
  end.

Definition pure {A : Type} (a : A) : io A := ([], Returned a).
Definition throw {A : Type} (e : string) : io A := ([], Threw e).
Definition emit {A : Type} (e : event) (o : outcome A) : io A := ([e], o).

(** [try { m } catch (error) { h(error.message) }] *)
Definition try_catch {A : Type} (m : io A) (h : string -> io A) : io A :=
  match m with
  | (t, Threw e) => let '(t', r) := h e in ((t ++ t')%list, r)
  | _ => m
  end.

Record SingleRecommendation : Type := {
  recommendedVendorId : string;
  recommendedVendorName : option string;
  reasoning : string;
  risks : list string
}.

Record SingleData `{Service} : Type := {
  comparison : option Compare.Comparison;
  recommendation : SingleRecommendation;
  proposals : list Proposal
}.

Inductive Data `{Service} : Type :=
| OnlyOne (d : SingleData)
| Compared (d : payload Compare.Analysis).

(** The JSON body [{success, message?, error?, data?}] and its status. *)
Record Response `{Service} : Type := {
  status : nat;
  success : bool;
  message : option string;
  error : option string;
  data : option Data
}.

Definition refuse `{Service} (code : nat) (msg : string) (err : option string) : Response :=
  {| status := code; success := false; message := Some msg;
     error := err; data := None |}.

(** [proposals[0].vendorId._id] and [proposals[0].vendorId.name]. *)
Definition vendor_of (p : Proposal) : io (string * option string) :=
  match Docs.vendorId p with
  | Populated v => pure (_id v, vendorName v)
  | Bare id => pure (id, None)
  | Missing => throw type_error
  end.

(** [aiService.compareProposals(rfp, proposals)] *)
Definition engine `{Host} `{Service} (openai : option client) (rfp : RFP)
  (proposals : list Proposal) : io (envelope Compare.Analysis) :=
  let '(calls, r) := Adapter.compareProposals openai rfp proposals in
  (InvokeEngine rfp proposals :: map CallService calls, r).

(** [for (const vendorScore of vendorScores) await Proposal.findOneAndUpdate(...)] *)
Fixpoint update_all (db : Store) (id : string) (vs : list Compare.VendorScore) : io unit :=
  match vs with
  | [] => pure tt
  | v :: rest =>
      _ ← emit (WriteScores id v) (findOneAndUpdate db id v);
      update_all db id rest
  end.

(** [comparisonResult.data.vendorScores] *)
Definition scores_of `{Service} (e : envelope Compare.Analysis)
  : io (list Compare.VendorScore) :=
  match Adapter.data e with
  | Some (FromFallback a) => pure (Compare.vendorScores a)
  | Some (FromService j) => ([], vendorScores_of j)
  | None => throw type_error
  end.

Definition compareProposals `{Host} `{Service} (openai : option client)
  (db : Store) (id : string) : io Response :=
  try_catch
    (found ← emit (ReadRFP id) (findById db id);
     match found with
     | None => pure (refuse 404 "RFP not found" None)
     | Some rfp =>
         proposals ← emit (ReadProposals id) (findParsed db id);
         match proposals with
         | [] => pure (refuse 400 "No parsed proposals available for comparison" None)
         | [only] =>
             '(vid, vname) ← vendor_of only;
             pure {| status := 200; success := true;
                     message := Some "Only one proposal available";
                     error := None;
                     data := Some (OnlyOne
                       {| comparison := None;
                          recommendation :=
                            {| recommendedVendorId := vid;
                               recommendedVendorName := vname;
                               reasoning := "Only one proposal received";
                               risks := ["Single vendor option - no competitive comparison possible"] |};
                          proposals := proposals |}) |}
         | _ =>
             comparisonResult ← engine openai rfp proposals;
             if negb (Adapter.success comparisonResult)
             then pure (refuse 500 "Failed to compare proposals"
                               (Adapter.error comparisonResult))
             else
               vendorScores ← scores_of comparisonResult;
               _ ← update_all db id vendorScores;
               _ ← emit (WriteStatus id "evaluated") (save db id "evaluated");
               match Adapter.data comparisonResult with
               | Some d =>
                   pure {| status := 200; success := true; message := None;
                           error := None; data := Some (Compared d) |}
               | None => throw type_error
               end
         end
     end)
    (fun message => pure (refuse 500 "Error comparing proposals" (Some message))).

End Controller.

(* ================================================================== *)
(** ** The vocabulary of the specification *)
(* ================================================================== *)

(** Definitions that follow the words of the specification, to be compared
    with the program. *)
Module Spec.
Import Docs.

(** A proposal "that has a price": its [totalPrice] is there (and, as the
    program tests it, is not zero). *)
Definition has_price (p : Proposal) : bool := has_num (Compare.total p).

(** "minPrice = min over only the proposals that do have a price (0 if none
    have a price)". *)
Definition minPrice (proposals : list Proposal) : num :=
  match List.filter (fun p => has_price p) proposals with
  | [] => 0%num
  | priced => min_of (map (fun p => to_num (Compare.total p)) priced)
  end.

(** "maxPrice = max of all raw totals-or-zero (zero counts if missing)". *)
Definition maxPrice (proposals : list Proposal) : num :=
  max_of (map (fun p => num_or (Compare.total p) 0) proposals).

(** "round(100 - ((price - minPrice) / (maxPrice - minPrice or 1)) x 50),
    clamped to [0,100]". *)
Definition priceFormula (proposals : list Proposal) (price : num) : num :=
  Compare.clamp
    (round (100 - ((price - minPrice proposals)
                    / ((maxPrice proposals - minPrice proposals) || 1)) * 50)%num).

(** "round(100 - (deliveryDays/60) x 50), clamped". *)
Definition deliveryFormula (deliveryDays : num) : num :=
  Compare.clamp (round (100 - (deliveryDays / 60) * 50)%num).

(** "the unweighted mean of the three sub-scores, rounded to the nearest
    integer (and clamped to [0,100])". *)
Definition meanFormula (a b c : num) : num :=
  Compare.clamp (round ((a + b + c) / 3)%num).

(** The price and the delivery days the scoring works with, as rationals:
    a missing or zero price is [0], missing or zero days are [999]. *)
Definition price_q (p : Proposal) : Q :=
  match Compare.total p with
  | Some t => if Qzero t then 0 else t
  | None => 0
  end.

Definition days_q (p : Proposal) : Q :=
  match Compare.days p with
  | Some t => if Qzero t then 999 else t
  | None => 999
  end.

(** The overall score of a vendor as an integer. *)
Definition points (v : Compare.VendorScore) : Z :=
  match Compare.overallScore v with Fin q => Qfloor q | _ => 0%Z end.

(** The regex fallback path of an adapter is taken: the service is not
    configured, or the call (or the parsing of its reply) throws. *)
Definition falls_back `{Adapter.Service} (openai : option Adapter.client)
  (q : Adapter.call) : Prop :=
  match openai with
  | None => True
  | Some c => exists message, Adapter.complete c q = Threw message
  end.

End Spec.

(* ================================================================== *)
(** ** Concrete hosts and inputs for the examples *)
(* ================================================================== *)

Module Examples.
Import Docs.

(** Integers in decimal; enough for the numbers of the examples. *)
Definition decimal_string (n : num) : string :=
  match n with
  | Fin q => NilZero.string_of_int (Z.to_int (Qfloor q))
  | PInf => "Infinity"
  | NInf => "-Infinity"
  | NaN => "NaN"
  end.

Definition host : Host :=
  {| numToString := decimal_string; toLocaleString := decimal_string |}.

(** A service whose replies are kept as text, unparsed. *)
Definition service : Adapter.Service :=
  {| Adapter.json := string;
     Adapter.JSON_parse := fun s => inl s;
     Adapter.vendorScores_of := fun _ => Returned [] |}.

(** A configured client whose every call fails. *)
Definition unreachable : Adapter.client := fun _ => Threw "connect ECONNREFUSED".

(** The scenario of the specification. *)
Definition scenario : string :=
  "We need 5 laptops with 16GB RAM and 2 monitors 24 inch, budget $10000, delivery in 2 weeks, Net 30 payment, 2 year warranty".

Definition proposal (vendor : string) (price days : option Q) (w : option string)
  : Proposal :=
  {| vendorId := Populated {| _id := vendor; vendorName := Some vendor |};
     parsedData := Some {| totalPrice := price; pdDeliveryDays := days;
                           pdWarranty := w |} |}.

Definition item (n : string) (q : Q) (sp : option string) : Item :=
  {| name := n; quantity := Some q; specifications := sp |}.

Definition rfp_with (l : list Item) : RFP :=
  {| title := "Office equipment"; description := Some "Laptops and monitors";
     budget := Some 10000%Q; deliveryDays := Some 14%Q; items := Some l;
     requirements := None |}.

(** A store that holds one RFP and the given parsed proposals for it. *)
Definition store (ps : list Proposal) : Controller.Store :=
  {| Controller.findById := fun _ => Returned (Some (rfp_with []));
     Controller.findParsed := fun _ => Returned ps;
     Controller.findOneAndUpdate := fun _ _ => Returned tt;
     Controller.save := fun _ _ => Returned tt |}.

Definition no_rfp : RFP :=
  {| title := "Office equipment"; description := None; budget := None;
     deliveryDays := None; items := Some []; requirements := None |}.

End Examples.

(* ================================================================== *)
(** ** Shapes of patterns *)
(* ================================================================== *)

Module Shape.

(** A pattern without a capture group. *)
Fixpoint capture_free (r : regex) : bool :=
  match r with
  | Cat r1 r2 | Alt r1 r2 => capture_free r1 && capture_free r2
  | Grp _ _ => false
  | _ => true
  end.

(** A text made of decimal digits only, and at least one. *)
Definition digits (l : list ascii) : Prop :=
  l <> [] /\ forallb is_digit l = true.

(** A number that is a whole number, zero or more. *)
Definition natural (a : num) : Prop := exists z : Z, a = of_Z z /\ (0 <= z)%Z.

(** Every character class of a pattern lies within [Q]. *)
Fixpoint within (Q : ascii -> Prop) (r : regex) : Prop :=
  match r with
  | Cls p | Star p | Plus p | Opt p => forall c, p c = true -> Q c
  | Cat r1 r2 | Alt r1 r2 => within Q r1 /\ within Q r2
  | Grp _ r1 => within Q r1
  | Eoi | Emp => True
  end.

(** A character other than the minus sign. *)
Definition no_minus (c : ascii) : Prop := eqc c "-" = false.

End Shape.

(* ================================================================== *)
(** ** The e-mail adapter: [generateRFPEmail] *)
(* ================================================================== *)

Module Generate.
Import Docs Adapter.

(** A request to the configured client: one of the calls of the parsing
    and comparison adapters, or the call that asks for an RFP e-mail. *)
Inductive request : Type :=
| Parse (c : Adapter.call)
| Compose (rfp : RFP) (vendorName : string).

Definition client : Type := request -> outcome string.

(** The same client, as the parsing and comparison adapters use it. *)
Definition narrow (openai : option client) : option Adapter.client :=
  match openai with
  | Some c => Some (fun q => c (Parse q))
  | None => None
  end.

Definition generateRFPEmail `{Host} `{Service} (openai : option client)
  (rfp : RFP) (vendorName : string) : list request * outcome (envelope Email.Mail) :=
  match openai with
  | None =>
      ([], Returned (fell_back (Email.fallbackGenerateEmail rfp vendorName)))
  | Some c =>
      (* the prompt is built before the [try]: [rfp.items.map(...)] *)
      match items rfp with
      | None => ([], Threw type_error)
      | Some _ =>
          ([Compose rfp vendorName],
           match c (Compose rfp vendorName) with
           | Returned content =>
               match JSON_parse content with
               | inl emailContent => Returned (answered emailContent)
               | inr _ =>
                   Returned (fell_back (Email.fallbackGenerateEmail rfp vendorName))
               end
           | Threw _ =>
               Returned (fell_back (Email.fallbackGenerateEmail rfp vendorName))
           | Diverged => Diverged
           end)
      end
  end.

End Generate.

(* ================================================================== *)
(** ** The e-mail service: sending, and filtering the replies *)
(* ================================================================== *)

Module Mailer.

Record Attachment : Type := { filename : value; path : value }.

(** The options handed to the transport. *)
Record MailOptions : Type := {
  from : string;
  to : value;
  subject : value;
  text : value;
  html : string;
  attachments : list Attachment
}.

(** The mail transport: the account the mail is sent from
    ([process.env.EMAIL_USER], as a template renders it), and
    [transporter.sendMail], which resolves to the identifier of the message
    or rejects. *)
Class Transport : Type := {
  EMAIL_USER : string;
  sendMail : MailOptions -> outcome string
}.

(** [{success, messageId?, error?}] *)
Record SendResult : Type := {
  success : bool;
  messageId : option string;
  error : option string
}.

(** [/\n/g] *)
Definition line_feed : regex := Cls (ch (ascii_of_nat 10)).

Definition sender `{Transport} : string :=
  String Extract.Patterns.quote "RFP Management System"
  ++ String Extract.Patterns.quote " <" ++ EMAIL_USER ++ ">".

(** [sendEmail(to, subject, body, attachments)]: the mails handed to the
    transport, and the result.  [body.replace] throws inside the [try]
    when the body is not a string. *)
Definition sendEmail `{Transport} (to subject body : value)
  (attachments : list Attachment) : list MailOptions * outcome SendResult :=
  match body with
  | VStr b =>
      let mailOptions :=
        {| from := sender; to := to; subject := subject; text := body;
           html := replace_all line_feed "<br>" b;
           attachments :=
             map (fun att => {| filename := filename att; path := path att |})
                 attachments |} in
      ([mailOptions],
       match sendMail mailOptions with
       | Returned id =>
           Returned {| success := true; messageId := Some id; error := None |}
       | Threw message =>
           Returned {| success := false; messageId := None; error := Some message |}
       | Diverged => Diverged
       end)
  | _ =>
      ([], Returned {| success := false; messageId := None;
                       error := Some type_error |})
  end.

Record Recipient : Type := {
  _id : string;
  name : value;
  email : value
}.

(** [{vendorId, vendorName, email, ...result}] *)
Record VendorResult : Type := {
  vendorId : string;
  vendorName : value;
  vendorEmail : value;
  result : SendResult
}.

(** [sendRFPToVendors(vendors, subject, body)]: one vendor after the
    other. *)
Fixpoint sendRFPToVendors `{Transport} (vendors : list Recipient)
  (subject body : value) : list MailOptions * outcome (list VendorResult) :=
  match vendors with
  | [] => ([], Returned [])
  | vendor :: rest =>
      match sendEmail (email vendor) subject body [] with
      | (sent, Returned r) =>
          let '(sent', results) := sendRFPToVendors rest subject body in
          ((sent ++ sent')%list,
           match results with
           | Returned rs =>
               Returned ({| vendorId := _id vendor; vendorName := name vendor;
                            vendorEmail := email vendor; result := r |} :: rs)
           | Threw e => Threw e
           | Diverged => Diverged
           end)
      | (sent, Threw e) => (sent, Threw e)
      | (sent, Diverged) => (sent, Diverged)
      end
  end.

(** A message of the inbox, as [fetchNewEmails] builds it: the sender's
    address is a string, empty when the message has none. *)
Record Inbound : Type := {
  inSubject : value;
  fromAddress : string;
  inText : value;
  inHtml : value
}.

(** [ve.toLowerCase() === fromEmail], a [TypeError] when [ve] is not a
    string. *)
Definition same_address (ve : value) (fromEmail : string) : outcome bool :=
  match ve with
  | VStr s => Returned (String.eqb (toLowerCase s) fromEmail)
  | _ => Threw type_error
  end.

(** [vendorEmails.some(ve => ve.toLowerCase() === fromEmail)] *)
Fixpoint some_address (vendorEmails : list value) (fromEmail : string)
  : outcome bool :=
  match vendorEmails with
  | [] => Returned false
  | ve :: rest =>
      b ← same_address ve fromEmail;
      if b : bool then Returned true else some_address rest fromEmail
  end.

(** [emails.filter(email => ...)] *)
Fixpoint from_vendors (vendorEmails : list value) (emails : list Inbound)
  : outcome (list Inbound) :=
  match emails with
  | [] => Returned []
  | email :: rest =>
      keep ← some_address vendorEmails (toLowerCase (fromAddress email));
      kept ← from_vendors vendorEmails rest;
      Returned (if keep : bool then email :: kept else kept)
  end.

(** [{success, responses?, error?}] *)
Record CheckResult : Type := {
  checked : bool;
  responses : option (list Inbound);
  checkError : option string
}.

(** [checkForVendorResponses(rfpId, vendorEmails, sinceDate)], given what
    [fetchNewEmails(sinceDate)] resolves to. *)
Definition checkForVendorResponses (fetched : outcome (list Inbound))
  (vendorEmails : list value) : outcome CheckResult :=
  match (emails ← fetched; from_vendors vendorEmails emails) with
  | Returned vendorResponses =>
      Returned {| checked := true; responses := Some vendorResponses;
                  checkError := None |}
  | Threw message =>
      Returned {| checked := false; responses := None;
                  checkError := Some message |}
  | Diverged => Diverged
  end.

End Mailer.

(* ================================================================== *)
(** ** The documents of the simulation endpoint *)
(* ================================================================== *)

Module Stored.
Import Docs Adapter.

(** The RFP as [RFP.findById] returns it: the fields the e-mail and the
    comparison read, and its status. *)
Record StoredRFP : Type := {
  rfp : RFP;
  status : string
}.

Record StoredVendor : Type := {
  email : value
}.

(** The document [new Proposal({...})] builds from the request, with the
    three fields the endpoint sets after parsing.  (The date of the e-mail
    is left out.) *)
Record NewProposal `{Service} : Type := {
  rfpId : value;
  vendorId : value;
  emailSubject : string;
  emailBody : value;
  emailFrom : value;
  parsedData : option (payload Proposals.ProposalExtraction);
  isParsingComplete : bool;
  proposalStatus : string
}.

End Stored.

(* ================================================================== *)
(** ** The RFP endpoints: [POST /api/rfps] and [POST /api/rfps/:id/send] *)
(* ================================================================== *)

Module Endpoints.
Import Docs Adapter.

(** [ToBoolean] of a value. *)
Definition truthy_value (v : value) : bool :=
  match v with
  | VUndefined | VNull => false
  | VBool b => b
  | VNum n => truthy n
  | VStr s => nonempty s
  | VObj => true
  end.

(** How the endpoints read the object the service answered with: the
    [deliveryDays] of an extraction, the [subject] and [body] of an e-mail.
    Reading a property of [null] throws. *)
Class Reader `{Service} : Type := {
  deliveryDays_of : json -> outcome value;
  mail_of : json -> outcome (value * value)
}.

(** The document [new RFP({...})] builds: the parsed data its fields are
    read from, the original input, the status, and the deadline as a
    number of days from now when it is set. *)
Record NewRFP `{Service} : Type := {
  parsed : payload Extract.ExtractionResult;
  originalInput : value;
  status : string;
  deadlineDays : option value
}.

Record SelectedVendor : Type := {
  _id : string;
  name : string;
  email : value
}.

(** The store, as the two endpoints use it: [rfp.save()] of a new
    document, which resolves to its identifier or rejects (validation);
    [RFP.findById(id).populate('selectedVendors', ...)]; and the saving of
    the status [sent]. *)
Record Store `{Service} : Type := {
  insert : NewRFP -> outcome string;
  findWithVendors : string -> outcome (option (RFP * list SelectedVendor));
  saveStatus : string -> string -> outcome unit
}.

(** What an endpoint does to the outside, in order. *)
Inductive event `{Service} : Type :=
| CallParser (input : value)
| AskService (q : Generate.request)
| Insert (doc : NewRFP)
| ReadRFP (id : string)
| HandToTransport (m : Mailer.MailOptions)
| WriteStatus (id : string) (s : string)
| FindRFP (id : value)
| FindVendor (id : value)
| SaveProposal (doc : Stored.NewProposal)
| CallProposalParser (emailBody emailSubject rfpContext : value)
| SaveRFPStatus (id : value) (s : string)
| FindProposal (doc : Stored.NewProposal).

Definition io `{Service} (A : Type) : Type := (list event * outcome A)%type.

#[global] Instance io_bind `{Service} : MBind io := fun A B k m =>
  match m with
  | (t, Returned a) => let '(t', r) := k a in ((t ++ t')%list, r)
  | (t, Threw e) => (t, Threw e)
  | (t, Diverged) => (t, Diverged)
  end.

Definition pure `{Service} {A : Type} (a : A) : io A := ([], Returned a).
Definition throw `{Service} {A : Type} (e : string) : io A := ([], Threw e).
Definition lift `{Service} {A : Type} (o : outcome A) : io A := ([], o).
Definition emit `{Service} {A : Type} (e : event) (o : outcome A) : io A := ([e], o).

(** [try { m } catch (error) { h(error.message) }] *)
Definition try_catch `{Service} {A : Type} (m : io A) (h : string -> io A) : io A :=
  match m with
  | (t, Threw e) => let '(t', r) := h e in ((t ++ t')%list, r)
  | _ => m
  end.

Record SendReport : Type := {
  vendorId : string;
  vendorName : string;
  vendorEmail : value;
  sent : bool;
  sendError : option string
}.

Inductive Data `{Service} : Type :=
| Created (id : string) (doc : NewRFP)
| Sent (rfpId : string) (results : list SendReport).

(** The JSON body [{success, message, error?, data?}] and its status. *)
Record Response `{Service} : Type := {
  code : nat;
  success : bool;
  message : string;
  error : option string;
  data : option Data
}.

Definition refuse `{Service} (c : nat) (msg : string) (err : option string) : Response :=
  {| code := c; success := false; message := msg; error := err; data := None |}.

(** [aiService.parseRFPFromNaturalLanguage(naturalLanguageInput)] *)
Definition parse `{Service} (openai : option Generate.client) (input : value)
  : io (envelope Extract.ExtractionResult) :=
  let '(calls, r) :=
    Adapter.parseRFPFromNaturalLanguage (Generate.narrow openai) input in
  (CallParser input :: map (fun q => AskService (Generate.Parse q)) calls, r).

(** [parsedData.deliveryDays], after the fields of the new document were
    read from [parsedData]. *)
Definition read_deliveryDays `{Reader} (parsedData : payload Extract.ExtractionResult)
  : outcome value :=
  match parsedData with
  | FromFallback d =>
      Returned (match Extract.deliveryDays d with
                | Some n => VNum n
                | None => VNull
                end)
  | FromService j => deliveryDays_of j
  end.

(** [createRFP]: the request body holds [naturalLanguageInput]. *)
Definition createRFP `{Reader} (openai : option Generate.client) (db : Store)
  (naturalLanguageInput : value) : io Response :=
  try_catch
    (if negb (truthy_value naturalLanguageInput)
     then pure (refuse 400 "Natural language input is required" None)
     else
       parseResult ← parse openai naturalLanguageInput;
       if negb (Adapter.success parseResult)
       then pure (refuse 500 "Failed to parse RFP" (Adapter.error parseResult))
       else
         match Adapter.data parseResult with
         | None => throw type_error
         | Some parsedData =>
             deliveryDays ← lift (read_deliveryDays parsedData);
             let rfp :=
               {| parsed := parsedData;
                  originalInput := naturalLanguageInput;
                  status := "draft";
                  deadlineDays :=
                    if truthy_value deliveryDays then Some deliveryDays else None |} in
             id ← emit (Insert rfp) (insert db rfp);
             pure {| code := 201; success := true;
                     message := "RFP created successfully";
                     error := None; data := Some (Created id rfp) |}
         end)
    (fun msg => pure (refuse 500 "Error creating RFP" (Some msg))).

(** [aiService.generateRFPEmail(rfp, vendor.name)] *)
Definition generate `{Host} `{Service} (openai : option Generate.client)
  (rfp : RFP) (vendorName : string) : io (envelope Email.Mail) :=
  let '(calls, r) := Generate.generateRFPEmail openai rfp vendorName in
  (map AskService calls, r).

(** [emailResult.data.subject] and [emailResult.data.body]. *)
Definition read_mail `{Reader} (e : envelope Email.Mail) : outcome (value * value) :=
  match Adapter.data e with
  | Some (FromFallback m) => Returned (VStr (Email.subject m), VStr (Email.body m))
  | Some (FromService j) => mail_of j
  | None => Threw type_error
  end.

(** [emailService.sendEmail(vendor.email, subject, body)] *)
Definition send `{Service} `{Mailer.Transport} (to subject body : value)
  : io Mailer.SendResult :=
  let '(mails, r) := Mailer.sendEmail to subject body [] in
  (map HandToTransport mails, r).

(** The loop over the selected vendors. *)
Fixpoint send_all `{Host} `{Reader} `{Mailer.Transport}
  (openai : option Generate.client) (rfp : RFP) (vendors : list SelectedVendor)
  : io (list SendReport) :=
  match vendors with
  | [] => pure []
  | vendor :: rest =>
      emailResult ← generate openai rfp (name vendor);
      report ←
        (if Adapter.success emailResult
         then
           '(subject, body) ← lift (read_mail emailResult);
           sendResult ← send (email vendor) subject body;
           pure {| vendorId := _id vendor; vendorName := name vendor;
                   vendorEmail := email vendor;
                   sent := Mailer.success sendResult;
                   sendError := Mailer.error sendResult |}
         else
           pure {| vendorId := _id vendor; vendorName := name vendor;
                   vendorEmail := email vendor;
                   sent := false;
                   sendError := Some "Failed to generate email content" |});
      reports ← send_all openai rfp rest;
      pure (report :: reports)
  end.

(** [sendRFPToVendors]: the request names the RFP.  (The time of sending,
    [sentAt], is left out.) *)
Definition sendRFPToVendors `{Host} `{Reader} `{Mailer.Transport}
  (openai : option Generate.client) (db : Store) (id : string) : io Response :=
  try_catch
    (found ← emit (ReadRFP id) (findWithVendors db id);
     match found with
     | None => pure (refuse 404 "RFP not found" None)
     | Some (rfp, selectedVendors) =>
         match selectedVendors with
         | [] => pure (refuse 400 "No vendors selected for this RFP" None)
         | _ =>
             sendResults ← send_all openai rfp selectedVendors;
             _ ← emit (WriteStatus id "sent") (saveStatus db id "sent");
             pure {| code := 200; success := true;
                     message := "RFP sent to vendors";
                     error := None; data := Some (Sent id sendResults) |}
         end
     end)
    (fun msg => pure (refuse 500 "Error sending RFP" (Some msg))).

End Endpoints.

(* ================================================================== *)
(** ** The simulation endpoint: [POST /api/proposals/simulate] *)
(* ================================================================== *)

Module Simulation.
Import Docs Adapter Endpoints Stored.

(** The store, as the endpoint uses it: [RFP.findById], [Vendor.findById],
    [proposal.save()], [rfp.save()] after the status was set, and
    [Proposal.findById(proposal._id).populate('vendorId', ...)]. *)
Record Store `{Service} : Type := {
  findRFP : value -> outcome (option StoredRFP);
  findVendor : value -> outcome (option StoredVendor);
  saveProposal : NewProposal -> outcome unit;
  saveRFPStatus : value -> string -> outcome unit;
  findProposal : NewProposal -> outcome (option NewProposal)
}.

(** The JSON body [{success, message, error?, data?}] and its status; the
    data is the proposal as read back, [null] when it is not found. *)
Record Response `{Service} : Type := {
  code : nat;
  success : bool;
  message : string;
  error : option string;
  data : option (option NewProposal)
}.

Definition refuse `{Service} (c : nat) (msg : string) (err : option string) : Response :=
  {| code := c; success := false; message := msg; error := err; data := None |}.

(** [aiService.parseVendorProposal(proposalText, proposal.emailSubject, rfpContext)] *)
Definition parse `{Host} `{Service} (openai : option Generate.client)
  (emailBody emailSubject rfpContext : value)
  : io (envelope Proposals.ProposalExtraction) :=
  let '(calls, r) :=
    Adapter.parseVendorProposal (Generate.narrow openai)
      emailBody emailSubject rfpContext in
  (CallProposalParser emailBody emailSubject rfpContext
     :: map (fun q => AskService (Generate.Parse q)) calls, r).

(** [`RE: RFP - ${rfp.title}`] *)
Definition subject_of (r : StoredRFP) : string := "RE: RFP - " ++ title (rfp r).

(** [`${rfp.title}: ${rfp.description || ''}`] *)
Definition context_of (r : StoredRFP) : string :=
  title (rfp r) ++ ": "
  ++ match description (rfp r) with
     | Some d => d
     | None => ""
     end.

(** The proposal as first saved. *)
Definition received `{Service} (rfpId vendorId proposalText : value)
  (r : StoredRFP) (vendor : StoredVendor) : NewProposal :=
  {| rfpId := rfpId; vendorId := vendorId;
     emailSubject := subject_of r;
     emailBody := proposalText;
     emailFrom := email vendor;
     parsedData := None;
     isParsingComplete := false;
     proposalStatus := "received" |}.

(** [proposal.parsedData = parseResult.data; proposal.isParsingComplete = true;
    proposal.status = 'parsed'] *)
Definition parsed_with `{Service}
  (d : option (payload Proposals.ProposalExtraction)) (p : NewProposal)
  : NewProposal :=
  {| rfpId := rfpId p; vendorId := vendorId p;
     emailSubject := emailSubject p;
     emailBody := emailBody p;
     emailFrom := emailFrom p;
     parsedData := d;
     isParsingComplete := true;
     proposalStatus := "parsed" |}.

(** [simulateProposal]: the request body holds [rfpId], [vendorId] and
    [proposalText]. *)
Definition simulateProposal `{Host} `{Service} (openai : option Generate.client)
  (db : Store) (rfpId vendorId proposalText : value) : io Response :=
  try_catch
    (if negb (truthy_value rfpId) || negb (truthy_value vendorId)
        || negb (truthy_value proposalText)
     then pure (refuse 400 "rfpId, vendorId, and proposalText are required" None)
     else
       foundRFP ← emit (FindRFP rfpId) (findRFP db rfpId);
       foundVendor ← emit (FindVendor vendorId) (findVendor db vendorId);
       match foundRFP, foundVendor with
       | Some r, Some vendor =>
           let proposal := received rfpId vendorId proposalText r vendor in
           _ ← emit (SaveProposal proposal) (saveProposal db proposal);
           parseResult ← parse openai proposalText
                           (VStr (emailSubject proposal)) (VStr (context_of r));
           proposal ←
             (if Adapter.success parseResult
              then
                let parsed := parsed_with (Adapter.data parseResult) proposal in
                _ ← emit (SaveProposal parsed) (saveProposal db parsed);
                pure parsed
              else pure proposal);
           _ ← (if String.eqb (status r) "sent"
                then emit (SaveRFPStatus rfpId "responses_received")
                          (saveRFPStatus db rfpId "responses_received")
                else pure tt);
           populatedProposal ← emit (FindProposal proposal) (findProposal db proposal);
           pure {| code := 201; success := true;
                   message := "Proposal simulated and parsed successfully";
                   error := None; data := Some populatedProposal |}
       | _, _ => pure (refuse 404 "RFP or Vendor not found" None)
       end)
    (fun msg => pure (refuse 500 "Error simulating proposal" (Some msg))).

End Simulation.

(* ================================================================== *)
(** ** What the send endpoint is expected to do on the fallback path *)
(* ================================================================== *)

Module Expected.
Import Docs.

(** The mail for one vendor: the fallback e-mail addressed to it. *)
Definition fallback_mail `{Host} `{Mailer.Transport} (rfp : RFP)
  (v : Endpoints.SelectedVendor) : Mailer.MailOptions :=
  let m := Email.fallbackGenerateEmail rfp (Endpoints.name v) in
  {| Mailer.from := Mailer.sender;
     Mailer.to := Endpoints.email v;
     Mailer.subject := VStr (Email.subject m);
     Mailer.text := VStr (Email.body m);
     Mailer.html := replace_all Mailer.line_feed "<br>" (Email.body m);
     Mailer.attachments := [] |}.

(** The entry of the report for one vendor: [sent] tells whether the
    transport took the mail, [error] is its message when it did not. *)
Definition fallback_report `{Host} `{Mailer.Transport} (rfp : RFP)
  (v : Endpoints.SelectedVendor) : Endpoints.SendReport :=
  {| Endpoints.vendorId := Endpoints._id v;
     Endpoints.vendorName := Endpoints.name v;
     Endpoints.vendorEmail := Endpoints.email v;
     Endpoints.sent :=
       match Mailer.sendMail (fallback_mail rfp v) with
       | Returned _ => true
       | _ => false
       end;
     Endpoints.sendError :=
       match Mailer.sendMail (fallback_mail rfp v) with
       | Threw message => Some message
       | _ => None
       end |}.

(** The requests an adapter sends when it reaches its fallback: the one
    call that failed when the service is configured, none otherwise. *)
Definition asked `{Adapter.Service} (openai : option Generate.client)
  (q : Adapter.call) : list Endpoints.event :=
  match openai with
  | Some _ => [Endpoints.AskService (Generate.Parse q)]
  | None => []
  end.

(** A reply is from a vendor when its sender's address is, case apart, one
    of the vendors' addresses. *)
Definition from_known (vendorEmails : list string) (email : Mailer.Inbound) : bool :=
  existsb (fun ve => String.eqb (toLowerCase ve)
                                (toLowerCase (Mailer.fromAddress email)))
          vendorEmails.

End Expected.

(* ================================================================== *)
(** ** Concrete stores, readers and transports for the examples *)
(* ================================================================== *)

Module Samples.
Import Docs.

(** A reader of the replies of [Examples.service], which holds no object. *)
Definition reader : @Endpoints.Reader Examples.service :=
  {| Endpoints.deliveryDays_of := fun _ => Returned VUndefined;
     Endpoints.mail_of := fun _ => Returned (VUndefined, VUndefined) |}.

(** A transport that rejects the mail to one address and takes the others. *)
Definition transport : Mailer.Transport :=
  {| Mailer.EMAIL_USER := "rfp@example.com";
     Mailer.sendMail := fun m =>
       match Mailer.to m with
       | VStr a =>
           if String.eqb a "bounce@example.com"
           then Threw "Invalid recipient"
           else Returned "<1@example.com>"
       | _ => Threw "No recipients defined"
       end |}.

Definition acme : Endpoints.SelectedVendor :=
  {| Endpoints._id := "v1"; Endpoints.name := "Acme";
     Endpoints.email := VStr "sales@acme.example" |}.

Definition bolt : Endpoints.SelectedVendor :=
  {| Endpoints._id := "v2"; Endpoints.name := "Bolt";
     Endpoints.email := VStr "bounce@example.com" |}.

(** A store that holds one RFP with the given selected vendors and accepts
    every write. *)
Definition rfps (vendors : list Endpoints.SelectedVendor)
  : @Endpoints.Store Examples.service :=
  {| Endpoints.insert := fun _ => Returned "rfp-1";
     Endpoints.findWithVendors := fun _ =>
       Returned (Some (Examples.rfp_with [], vendors));
     Endpoints.saveStatus := fun _ _ => Returned tt |}.

(** The store of [Examples.store], rejecting every write of scores. *)
Definition read_only (ps : list Proposal) : Controller.Store :=
  {| Controller.findById := fun _ => Returned (Some (Examples.rfp_with []));
     Controller.findParsed := fun _ => Returned ps;
     Controller.findOneAndUpdate := fun _ _ => Threw "write refused";
     Controller.save := fun _ _ => Returned tt |}.

(** A proposal whose vendor no longer exists. *)
Definition orphan (price : Q) : Proposal :=
  {| vendorId := Missing;
     parsedData := Some {| totalPrice := Some price; pdDeliveryDays := None;
                           pdWarranty := None |} |}.

(** An RFP without an items array. *)
Definition no_items : RFP :=
  {| title := "Office equipment"; description := None; budget := None;
     deliveryDays := None; items := None; requirements := None |}.

Definition acme_recipient : Mailer.Recipient :=
  {| Mailer._id := "v1"; Mailer.name := VStr "Acme";
     Mailer.email := VStr "sales@acme.example" |}.

Definition bolt_recipient : Mailer.Recipient :=
  {| Mailer._id := "v2"; Mailer.name := VStr "Bolt";
     Mailer.email := VStr "bounce@example.com" |}.

(** A store for the simulation endpoint: one RFP in the given status, one
    vendor, every write accepted, and the proposal read back as saved. *)
Definition proposals (st : string) : @Simulation.Store Examples.service :=
  {| Simulation.findRFP := fun _ =>
       Returned (Some {| Stored.rfp := Examples.rfp_with []; Stored.status := st |});
     Simulation.findVendor := fun _ =>
       Returned (Some {| Stored.email := VStr "sales@acme.example" |});
     Simulation.saveProposal := fun _ => Returned tt;
     Simulation.saveRFPStatus := fun _ _ => Returned tt;
     Simulation.findProposal := fun p => Returned (Some p) |}.

Definition reply (address : string) : Mailer.Inbound :=
  {| Mailer.inSubject := VStr "RE: RFP"; Mailer.fromAddress := address;
     Mailer.inText := VStr "Our offer"; Mailer.inHtml := VUndefined |}.

End Samples.

(* ================================================================== *)
(** * Properties *)
(* ================================================================== *)

(** ** The regex engine *)

Lemma star_rests_length (p : ascii -> bool) (s t : list ascii) :
  In t (star_rests p s) -> (length t <= length s)%nat.
Proof.
  revert t. induction s as [|c s IH]; intros t; simpl.
  - intros [<-|[]]. reflexivity.
  - destruct (p c).
    + rewrite in_app_iff. intros [Ht|[<-|[]]].
      * specialize (IH _ Ht). lia.
      * simpl. lia.
    + intros [<-|[]]. simpl. lia.
Qed.

(** A match never gives input back, and a pattern that cannot match the
    empty string consumes at least one code unit. *)
Lemma run_consumes (r : regex) :
  forall s caps t c, In (t, c) (run r s caps) ->
    (length t <= length s)%nat /\ (nullable r = false -> (length t < length s)%nat).
Proof.
  induction r as [p|p|p|p|r1 IH1 r2 IH2|r1 IH1 r2 IH2|i r IH| |];
    intros s caps t c; simpl.
  - destruct s as [|a s]; [intros []|]. destruct (p a); [|intros []].
    intros [[= <- <-]|[]]. simpl. split; [lia|intros _; lia].
  - rewrite in_map_iff. intros (u & [= <- <-] & Hu).
    apply star_rests_length in Hu. split; [lia|discriminate].
  - destruct s as [|a s]; [intros []|]. destruct (p a); [|intros []].
    rewrite in_map_iff. intros (u & [= <- <-] & Hu).
    apply star_rests_length in Hu. simpl. split; [lia|intros _; lia].
  - destruct s as [|a s].
    + intros [[= <- <-]|[]]. split; [lia|discriminate].
    + destruct (p a).
      * intros [[= <- <-]|[[= <- <-]|[]]]; simpl; (split; [lia|discriminate]).
      * intros [[= <- <-]|[]]. split; [lia|discriminate].
  - rewrite in_flat_map. intros ([u d] & Hu & Ht).
    destruct (IH1 _ _ _ _ Hu) as [Hle1 Hlt1].
    destruct (IH2 _ _ _ _ Ht) as [Hle2 Hlt2].
    split; [lia|]. intros Hn. apply andb_false_iff in Hn as [Hn|Hn].
    + specialize (Hlt1 Hn). lia.
    + specialize (Hlt2 Hn). lia.
  - rewrite in_app_iff. intros [Ht|Ht].
    + destruct (IH1 _ _ _ _ Ht) as [Hle Hlt]. split; [lia|].
      intros Hn. apply orb_false_iff in Hn as [Hn _]. auto.
    + destruct (IH2 _ _ _ _ Ht) as [Hle Hlt]. split; [lia|].
      intros Hn. apply orb_false_iff in Hn as [_ Hn]. auto.
  - rewrite in_map_iff. intros ([u d] & [= <- <-] & Hu).
    exact (IH _ _ _ _ Hu).
  - destruct s; [|intros []]. intros [[= <- <-]|[]]. split; [lia|discriminate].
  - intros [[= <- <-]|[]]. split; [lia|discriminate].
Qed.

(** The [exec] loop ends for every pattern that cannot match the empty
    string. *)
Lemma exec_loop_total (r : regex) :
  nullable r = false ->
  forall s idx skip, exists ms, exec_loop r s idx skip = Some ms.
Proof.
  intros Hn s. induction s as [|a s IH]; intros idx skip.
  - destruct skip as [|k]; simpl; [|eauto].
    destruct (run r [] []) as [|[t c] l] eqn:Hr; [eauto|].
    assert (Hin : In (t, c) (run r [] [])) by (rewrite Hr; left; reflexivity).
    apply run_consumes in Hin as [_ Hlt]. specialize (Hlt Hn). simpl in Hlt. lia.
  - destruct skip as [|k]; simpl; [|apply IH].
    destruct (run r (a :: s) []) as [|[t c] l] eqn:Hr; [apply IH|].
    assert (Hin : In (t, c) (run r (a :: s) [])) by (rewrite Hr; left; reflexivity).
    apply run_consumes in Hin as [_ Hlt]. specialize (Hlt Hn). simpl in Hlt.
    destruct (S (length s) - length t)%nat as [|k] eqn:Hk; [lia|].
    destruct (IH (S idx) k) as [ms Hms]. rewrite Hms. eauto.
Qed.

(** ** The regex extraction engine *)

Lemma item_patterns_consume :
  Forall (fun r => nullable r = false) Extract.Patterns.itemPatterns.
Proof. repeat constructor. Qed.

(** Collecting the items ends, whatever the input. *)
Lemma collect_items_total (patterns : list regex) :
  Forall (fun r => nullable r = false) patterns ->
  forall userInput acc, exists l,
    Extract.collect_items patterns userInput acc = Returned l.
Proof.
  induction 1 as [|r rest Hr _ IH]; intros userInput acc; simpl.
  - eauto.
  - destruct (exec_loop_total r Hr (chars userInput) 0%nat 0%nat) as [ms Hms].
    unfold exec_all. rewrite Hms. simpl. apply IH.
Qed.

(** When no pattern matches, nothing is collected. *)
Lemma collect_items_none (patterns : list regex) (userInput : string) :
  Forall (fun r => exec_all r userInput = Some []) patterns ->
  forall acc, Extract.collect_items patterns userInput acc = Returned acc.
Proof.
  induction 1 as [|r rest Hr _ IH]; intros acc; simpl.
  - reflexivity.
  - rewrite Hr. simpl. rewrite app_nil_r. apply IH.
Qed.

(** The extractor returns for every string, with at least one item; when
    nothing was collected the single item is the placeholder. *)
Lemma fallbackParseRFP_string_total (userInput : string) :
  exists r, Extract.fallbackParseRFP_string userInput = Returned r
    /\ (1 <= length (Extract.items r))%nat
    /\ (Extract.collect_items Extract.Patterns.itemPatterns userInput [] = Returned []
        -> Extract.items r = [Extract.placeholder_item userInput]).
Proof.
  unfold Extract.fallbackParseRFP_string.
  destruct (collect_items_total _ item_patterns_consume userInput []) as [l Hl].
  rewrite Hl. simpl. eexists. split; [reflexivity|]. simpl. split.
  - match goal with |- context [(0 <? length ?x)%nat] =>
      destruct (0 <? length x)%nat eqn:E end.
    + apply Nat.ltb_lt in E. lia.
    + simpl. lia.
  - intros [= ->].
    destruct (str_match Extract.Patterns.ram userInput);
      destruct (str_match Extract.Patterns.screen userInput); reflexivity.
Qed.

(** C4. On the scenario input of the specification the regex fallback
    extractor returns the items Laptop (5, "16GB RAM") and Monitor (2,
    "24 inch"), budget 10000, 14 delivery days, payment terms "Net 30" and
    warranty "2 years warranty". *)
Theorem C4_scenario_extraction :
  exists r, Extract.fallbackParseRFP (VStr Examples.scenario) = Returned r
    /\ Extract.items r =
         [ {| Extract.name := "Laptop"; Extract.quantity := 5;
              Extract.specifications := "16GB RAM" |};
           {| Extract.name := "Monitor"; Extract.quantity := 2;
              Extract.specifications := "24 inch" |} ]
    /\ Extract.budget r = Some 10000%num
    /\ Extract.deliveryDays r = Some 14%num
    /\ Extract.paymentTerms (Extract.requirements r) = Some "Net 30"
    /\ Extract.warranty (Extract.requirements r) = Some "2 years warranty".
Proof.
  eexists. split; [vm_compute; reflexivity|].
  repeat split; vm_compute; reflexivity.
Qed.

(** C10. When the first extracted item is a monitor and the text has both a
    RAM phrase and a screen-size phrase, the screen size replaces the RAM
    specification written to that item just before: the item is returned
    with specifications "<n> inch", and no item carries the RAM text. *)
Theorem C10_screen_size_overwrites_ram
  (userInput : string) (first : Extract.Item) (rest : list Extract.Item)
  (ramMatch screenMatch : rmatch) :
  Extract.collect_items Extract.Patterns.itemPatterns userInput []
    = Returned (first :: rest) ->
  Extract.is_monitor first ->
  str_match Extract.Patterns.ram userInput = Some ramMatch ->
  str_match Extract.Patterns.screen userInput = Some screenMatch ->
  exists r, Extract.fallbackParseRFP (VStr userInput) = Returned r
    /\ Extract.items r =
         Extract.set_specifications (group_str 1 screenMatch ++ " inch") first
         :: rest.
Proof.
  intros Hitems Hmon Hram Hscreen. simpl.
  unfold Extract.fallbackParseRFP_string.
  rewrite Hitems, Hram, Hscreen. simpl.
  rewrite decide_True by exact Hmon.
  simpl. eexists. split; reflexivity.
Qed.

Lemma C10_screen_size_overwrites_ram_witness :
  exists r, Extract.fallbackParseRFP (VStr "2 monitors with 16GB RAM, 27 inch") = Returned r
    /\ Extract.items r =
         [ {| Extract.name := "Monitor"; Extract.quantity := 2;
              Extract.specifications := "27 inch" |} ].
Proof.
  destruct (str_match Extract.Patterns.ram "2 monitors with 16GB RAM, 27 inch")
    as [ramMatch|] eqn:Hram; [|vm_compute in Hram; discriminate].
  destruct (str_match Extract.Patterns.screen "2 monitors with 16GB RAM, 27 inch")
    as [screenMatch|] eqn:Hscreen; [|vm_compute in Hscreen; discriminate].
  destruct (C10_screen_size_overwrites_ram
              "2 monitors with 16GB RAM, 27 inch"
              {| Extract.name := "Monitor"; Extract.quantity := 2;
                 Extract.specifications := "" |} [] ramMatch screenMatch)
    as (r & Hr & Hi).
  - vm_compute. reflexivity.
  - vm_compute. reflexivity.
  - exact Hram.
  - exact Hscreen.
  - exists r. split; [exact Hr|]. rewrite Hi.
    vm_compute in Hscreen. injection Hscreen as <-. vm_compute. reflexivity.
Defined.

(** ** Numbers *)

Lemma Qltb_lt (a b : Q) : Qltb a b = true <-> (a < b)%Q.
Proof.
  unfold Qltb. rewrite Qlt_alt. destruct (a ?= b)%Q; split; congruence.
Qed.

Lemma Qltb_ge (a b : Q) : Qltb a b = false <-> (b <= a)%Q.
Proof.
  rewrite <- not_true_iff_false, Qltb_lt. split.
  - apply Qnot_lt_le.
  - apply Qle_not_lt.
Qed.

Lemma Qzero_eq (a : Q) : Qzero a = true <-> (a == 0)%Q.
Proof.
  unfold Qzero. rewrite Qeq_alt. destruct (a ?= 0)%Q; split; congruence.
Qed.

Lemma Qzero_neq (a : Q) : Qzero a = false <-> ~ (a == 0)%Q.
Proof. rewrite <- not_true_iff_false, Qzero_eq. reflexivity. Qed.

Lemma Qltb_inject_Z (a b : Z) : Qltb (inject_Z a) (inject_Z b) = (a <? b)%Z.
Proof.
  unfold Qltb, Qcompare, Z.ltb. simpl. rewrite !Z.mul_1_r. reflexivity.
Qed.

Lemma ltb_of_Z (a b : Z) : (of_Z a <? of_Z b)%num = (a <? b)%Z.
Proof. apply Qltb_inject_Z. Qed.

Lemma min2_of_Z (a b : Z) : min2 (of_Z a) (of_Z b) = of_Z (Z.min a b).
Proof.
  change (min2 (of_Z a) (of_Z b))
    with (if (of_Z b <? of_Z a)%num then of_Z b else of_Z a).
  rewrite ltb_of_Z. destruct (b <? a)%Z eqn:E.
  - apply Z.ltb_lt in E. f_equal. lia.
  - apply Z.ltb_ge in E. f_equal. lia.
Qed.

Lemma max2_of_Z (a b : Z) : max2 (of_Z a) (of_Z b) = of_Z (Z.max a b).
Proof.
  change (max2 (of_Z a) (of_Z b))
    with (if (of_Z a <? of_Z b)%num then of_Z b else of_Z a).
  rewrite ltb_of_Z. destruct (a <? b)%Z eqn:E.
  - apply Z.ltb_lt in E. f_equal. lia.
  - apply Z.ltb_ge in E. f_equal. lia.
Qed.

Lemma clamp_of_Z (z : Z) :
  Compare.clamp (of_Z z) = of_Z (Z.max 0 (Z.min 100 z)).
Proof.
  unfold Compare.clamp.
  change 100%num with (of_Z 100). change 0%num with (of_Z 0).
  rewrite min2_of_Z, max2_of_Z. reflexivity.
Qed.

Lemma clamp_int (z : Z) : int_between 0 100 (Compare.clamp (of_Z z)).
Proof. rewrite clamp_of_Z. eexists. split; [reflexivity|lia]. Qed.

(** Inside the range the clamp changes nothing. *)
Lemma clamp_id (z : Z) :
  (0 <= z <= 100)%Z -> Compare.clamp (of_Z z) = of_Z z.
Proof. intros Hz. rewrite clamp_of_Z. f_equal. lia. Qed.

Lemma round_fin (q : Q) : round (Fin q) = of_Z (Qfloor (q + (1 # 2))).
Proof. reflexivity. Qed.

(** [Math.max] and [Math.min] over finite numbers: the result is one of
    them and bounds them all. *)
Lemma fold_max2_fin (qs : list Q) :
  forall a, exists m, fold_left max2 (map Fin qs) (Fin a) = Fin m
    /\ In m (a :: qs) /\ (forall q, In q (a :: qs) -> (q <= m)%Q).
Proof.
  induction qs as [|x qs IH]; intros a; simpl.
  - exists a. split; [reflexivity|]. split; [left; reflexivity|].
    intros q [<-|[]]. apply Qle_refl.
  - destruct (Qltb a x) eqn:E.
    + apply Qltb_lt in E. destruct (IH x) as (m & Hm & Hin & Hle).
      exists m. split; [exact Hm|]. split.
      * right. exact Hin.
      * intros q [<-|Hq]; [|apply Hle; exact Hq].
        apply Qle_trans with x; [apply Qlt_le_weak; exact E|].
        apply Hle. left. reflexivity.
    + apply Qltb_ge in E. destruct (IH a) as (m & Hm & Hin & Hle).
      exists m. split; [exact Hm|]. split.
      * destruct Hin as [<-|Hin]; [left; reflexivity|right; right; exact Hin].
      * intros q [<-|[<-|Hq]].
        -- apply Hle. left. reflexivity.
        -- apply Qle_trans with a; [exact E|]. apply Hle. left. reflexivity.
        -- apply Hle. right. exact Hq.
Qed.

Lemma fold_min2_fin (qs : list Q) :
  forall a, exists m, fold_left min2 (map Fin qs) (Fin a) = Fin m
    /\ In m (a :: qs) /\ (forall q, In q (a :: qs) -> (m <= q)%Q).
Proof.
  induction qs as [|x qs IH]; intros a; simpl.
  - exists a. split; [reflexivity|]. split; [left; reflexivity|].
    intros q [<-|[]]. apply Qle_refl.
  - destruct (Qltb x a) eqn:E.
    + apply Qltb_lt in E. destruct (IH x) as (m & Hm & Hin & Hle).
      exists m. split; [exact Hm|]. split.
      * right. exact Hin.
      * intros q [<-|Hq]; [|apply Hle; exact Hq].
        apply Qle_trans with x; [|apply Qlt_le_weak; exact E].
        apply Hle. left. reflexivity.
    + apply Qltb_ge in E. destruct (IH a) as (m & Hm & Hin & Hle).
      exists m. split; [exact Hm|]. split.
      * destruct Hin as [<-|Hin]; [left; reflexivity|right; right; exact Hin].
      * intros q [<-|[<-|Hq]].
        -- apply Hle. left. reflexivity.
        -- apply Qle_trans with a; [|exact E]. apply Hle. left. reflexivity.
        -- apply Hle. right. exact Hq.
Qed.

Lemma max_of_fin (x : Q) (qs : list Q) :
  exists m, max_of (map Fin (x :: qs)) = Fin m
    /\ In m (x :: qs) /\ (forall q, In q (x :: qs) -> (q <= m)%Q).
Proof. unfold max_of. simpl. apply fold_max2_fin. Qed.

Lemma min_of_fin (x : Q) (qs : list Q) :
  exists m, min_of (map Fin (x :: qs)) = Fin m
    /\ In m (x :: qs) /\ (forall q, In q (x :: qs) -> (m <= q)%Q).
Proof. unfold min_of. simpl. apply fold_min2_fin. Qed.

(** ** The comparison engine *)

Section Scoring.
Import Docs.
Context {host : Host}.

Lemma price_is (p : Proposal) : Compare.price p = Fin (Spec.price_q p).
Proof.
  unfold Compare.price, Spec.price_q, num_or, or_else, truthy.
  destruct (Compare.total p) as [t|]; [|reflexivity].
  destruct (Qzero t); reflexivity.
Qed.

Lemma delivery_is (p : Proposal) : Compare.delivery p = Fin (Spec.days_q p).
Proof.
  unfold Compare.delivery, Spec.days_q, num_or, or_else, truthy.
  destruct (Compare.days p) as [t|]; [|reflexivity].
  destruct (Qzero t); reflexivity.
Qed.

Lemma prices_are (ps : list Proposal) :
  map (fun pr => num_or (Compare.total pr) 0) ps = map Fin (map Spec.price_q ps).
Proof.
  rewrite map_map. apply map_ext. intros p. apply price_is.
Qed.

Lemma has_price_nonzero (p : Proposal) :
  Spec.has_price p = true ->
  to_num (Compare.total p) = Fin (Spec.price_q p) /\ Qzero (Spec.price_q p) = false.
Proof.
  unfold Spec.has_price, has_num, Spec.price_q, truthy.
  destruct (Compare.total p) as [t|]; [|discriminate].
  destruct (Qzero t) eqn:E; [discriminate|]. intros _. split; [reflexivity|exact E].
Qed.

Lemma positive_has_price (p : Proposal) :
  (0 < Spec.price_q p)%Q -> Spec.has_price p = true.
Proof.
  unfold Spec.has_price, has_num, Spec.price_q, truthy.
  destruct (Compare.total p) as [t|].
  - destruct (Qzero t); [intros H; exfalso; revert H; apply Qlt_irrefl|reflexivity].
  - intros H; exfalso; revert H; apply Qlt_irrefl.
Qed.

(** For a proposal of the list with a positive price, the two extremes the
    program computes are finite, they are the ones the specification
    words, and the price lies between them. *)
Lemma extremes_of_priced (ps : list Proposal) (p : Proposal) :
  In p ps -> (0 < Spec.price_q p)%Q ->
  exists lo hi,
    Compare.minPrice ps = Fin lo /\ Spec.minPrice ps = Fin lo
    /\ Compare.maxPrice ps = Fin hi /\ Spec.maxPrice ps = Fin hi
    /\ (lo <= Spec.price_q p)%Q /\ (Spec.price_q p <= hi)%Q.
Proof.
  intros Hin Hpos.
  (* the minimum *)
  assert (Hf : In p (List.filter (fun pr => Spec.has_price pr) ps)).
  { apply filter_In. split; [exact Hin|]. apply positive_has_price. exact Hpos. }
  assert (Hmap : map (fun pr => to_num (Compare.total pr))
                     (List.filter (fun pr => Spec.has_price pr) ps)
                 = map Fin (map Spec.price_q (List.filter (fun pr => Spec.has_price pr) ps))).
  { rewrite map_map. apply map_ext_in. intros a Ha.
    apply filter_In in Ha as [_ Ha]. apply has_price_nonzero in Ha as [Ha _]. exact Ha. }
  assert (Hlo : exists lo,
    min_of (map (fun pr => to_num (Compare.total pr))
                (List.filter (fun pr => Spec.has_price pr) ps)) = Fin lo
    /\ Qzero lo = false /\ (lo <= Spec.price_q p)%Q).
  { rewrite Hmap.
    destruct (List.filter (fun pr => Spec.has_price pr) ps) as [|f fs] eqn:Ef; [destruct Hf|].
    destruct (min_of_fin (Spec.price_q f) (map Spec.price_q fs)) as (lo & Hlo & Hmem & Hle).
    exists lo. split; [exact Hlo|]. split.
    - change (In lo (map Spec.price_q (f :: fs))) in Hmem.
      apply in_map_iff in Hmem as (a & <- & Ha).
      rewrite <- Ef in Ha. apply filter_In in Ha as [_ Ha].
      apply has_price_nonzero in Ha as [_ Ha]. exact Ha.
    - apply Hle. change (In (Spec.price_q p) (map Spec.price_q (f :: fs))).
      apply in_map. exact Hf. }
  destruct Hlo as (lo & Hlo & Hnz & Hle).
  (* the maximum *)
  assert (Hhi : exists hi,
    max_of (map (fun pr => num_or (Compare.total pr) 0) ps) = Fin hi
    /\ (Spec.price_q p <= hi)%Q).
  { rewrite prices_are. destruct ps as [|a ps']; [destruct Hin|].
    destruct (max_of_fin (Spec.price_q a) (map Spec.price_q ps')) as (hi & Hhi & _ & Hge).
    exists hi. split; [exact Hhi|].
    apply Hge. change (In (Spec.price_q p) (map Spec.price_q (a :: ps'))).
    apply in_map. exact Hin. }
  destruct Hhi as (hi & Hhi & Hge).
  exists lo, hi. repeat split; try assumption.
  - unfold Compare.minPrice. unfold Spec.has_price in Hlo.
    rewrite Hlo. unfold or_else, truthy. rewrite Hnz. reflexivity.
  - unfold Spec.minPrice.
    destruct (List.filter (fun pr => Spec.has_price pr) ps) as [|f fs] eqn:Ef; [destruct Hf|].
    exact Hlo.
  - unfold Compare.maxPrice. rewrite Hhi. unfold or_else, truthy.
    assert (Hhz : Qzero hi = false).
    { apply Qzero_neq. intros E. rewrite E in Hge.
      apply (Qlt_irrefl 0). apply Qlt_le_trans with (Spec.price_q p); assumption. }
    rewrite Hhz. reflexivity.
Qed.

Lemma ratio_in_unit (n d : Q) :
  (0 < d)%Q -> (0 <= n)%Q -> (n <= d)%Q -> (0 <= n / d)%Q /\ (n / d <= 1)%Q.
Proof.
  intros Hd Hn Hnd. split.
  - apply Qle_shift_div_l; [exact Hd|]. lra.
  - apply Qle_shift_div_r; [exact Hd|]. lra.
Qed.

Lemma Qfloor_between (x : Q) (lo hi : Z) :
  (inject_Z lo <= x)%Q -> (x < inject_Z (hi + 1))%Q -> (lo <= Qfloor x <= hi)%Z.
Proof.
  intros Hlo Hhi. split.
  - rewrite <- (Qfloor_Z lo). apply Qfloor_resp_le. exact Hlo.
  - assert (Hlt : (inject_Z (Qfloor x) < inject_Z (hi + 1))%Q).
    { apply Qle_lt_trans with x; [apply Qfloor_le|exact Hhi]. }
    rewrite <- Zlt_Qlt in Hlt. lia.
Qed.

Lemma gtb_zero (q : Q) : (Fin q >? 0)%num = true <-> (0 < q)%Q.
Proof. unfold gtb, ltb. apply Qltb_lt. Qed.

(** The price score before the clamp is the formula of the specification
    for a positive price, and [50] otherwise. *)
Lemma rawPriceScore_formula (ps : list Proposal) (p : Proposal) :
  In p ps ->
  Compare.rawPriceScore ps p =
    if (Compare.price p >? 0)%num
    then round (100 - ((Compare.price p - Spec.minPrice ps)
                       / ((Spec.maxPrice ps - Spec.minPrice ps) || 1)) * 50)%num
    else 50%num.
Proof.
  intros Hin. unfold Compare.rawPriceScore.
  destruct (Compare.price p >? 0)%num eqn:E; [|reflexivity].
  rewrite price_is in E. apply gtb_zero in E.
  destruct (extremes_of_priced ps p Hin E) as (lo & hi & -> & -> & -> & -> & _).
  reflexivity.
Qed.

(** It is an integer between 50 and 100. *)
Lemma rawPriceScore_range (ps : list Proposal) (p : Proposal) :
  In p ps -> int_between 50 100 (Compare.rawPriceScore ps p).
Proof.
  intros Hin. unfold Compare.rawPriceScore.
  destruct (Compare.price p >? 0)%num eqn:E.
  2:{ exists 50%Z. split; [reflexivity|lia]. }
  rewrite price_is in E. apply gtb_zero in E.
  destruct (extremes_of_priced ps p Hin E) as (lo & hi & -> & _ & -> & _ & Hlo & Hhi).
  rewrite price_is. set (P := Spec.price_q p) in *.
  assert (Hden : exists d, ((Fin hi - Fin lo) || 1)%num = Fin d
                   /\ (0 < d)%Q /\ (P + - lo <= d)%Q).
  { unfold sub, neg, add, or_else, truthy.
    destruct (Qzero (hi + - lo)) eqn:Ez; simpl.
    - apply Qzero_eq in Ez. exists 1%Q. split; [reflexivity|]. split; lra.
    - apply Qzero_neq in Ez. exists (hi + - lo)%Q. split; [reflexivity|].
      split; [|lra].
      destruct (Qlt_le_dec 0 (hi + - lo)) as [Hlt|Hle]; [exact Hlt|].
      exfalso. apply Ez. lra. }
  destruct Hden as (d & -> & Hd & Hnd).
  assert (Hdz : Qzero d = false).
  { apply Qzero_neq. intros Ed. rewrite Ed in Hd. revert Hd. apply Qlt_irrefl. }
  unfold sub, neg, add, div, mul. rewrite Hdz. rewrite round_fin.
  destruct (ratio_in_unit (P + - lo) d Hd ltac:(lra) Hnd) as [H0 H1].
  eexists. split; [reflexivity|].
  apply Qfloor_between.
  - change (inject_Z 50) with 50%Q. lra.
  - change (inject_Z (100 + 1)) with 101%Q. lra.
Qed.

Lemma rawDeliveryScore_formula (p : Proposal) :
  Compare.rawDeliveryScore p =
    if Qltb (Spec.days_q p) 999
    then of_Z (Qfloor (100 + - (Spec.days_q p / 60 * 50) + (1 # 2)))
    else 50%num.
Proof.
  unfold Compare.rawDeliveryScore. rewrite delivery_is.
  change (Fin (Spec.days_q p) <? 999)%num with (Qltb (Spec.days_q p) 999).
  destruct (Qltb (Spec.days_q p) 999); reflexivity.
Qed.

Lemma rawDeliveryScore_int (p : Proposal) :
  exists z, Compare.rawDeliveryScore p = of_Z z.
Proof.
  rewrite rawDeliveryScore_formula.
  destruct (Qltb (Spec.days_q p) 999); eexists; reflexivity.
Qed.

Lemma rawTermsScore_value (p : Proposal) :
  Compare.rawTermsScore p = of_Z (if present (Compare.warranty_of p) then 80 else 60).
Proof. unfold Compare.rawTermsScore. destruct (present _); reflexivity. Qed.

Lemma rawOverallScore_int (ps : list Proposal) (p : Proposal) :
  In p ps -> exists z, Compare.rawOverallScore ps p = of_Z z.
Proof.
  intros Hin. unfold Compare.rawOverallScore.
  destruct (rawPriceScore_range ps p Hin) as (a & -> & _).
  destruct (rawDeliveryScore_int p) as (b & ->).
  rewrite rawTermsScore_value.
  eexists. reflexivity.
Qed.

(** Every score of the returned object is an integer from 0 to 100. *)
Lemma score_in_range (ps : list Proposal) (p : Proposal) :
  In p ps ->
  int_between 0 100 (Compare.priceScore (Compare.score ps p))
  /\ int_between 0 100 (Compare.deliveryScore (Compare.score ps p))
  /\ int_between 0 100 (Compare.termsScore (Compare.score ps p))
  /\ int_between 0 100 (Compare.overallScore (Compare.score ps p)).
Proof.
  intros Hin. simpl. repeat split.
  - destruct (rawPriceScore_range ps p Hin) as (a & -> & _). apply clamp_int.
  - destruct (rawDeliveryScore_int p) as (b & ->). apply clamp_int.
  - rewrite rawTermsScore_value. eexists. split; [reflexivity|].
    destruct (present _); lia.
  - destruct (rawOverallScore_int ps p Hin) as (c & ->). apply clamp_int.
Qed.

(** *** The stable sort *)

Lemma Forall_perm {A : Type} (Q : A -> Prop) (l l' : list A) :
  Permutation l l' -> Forall Q l' -> Forall Q l.
Proof.
  intros Hp Hl. apply List.Forall_forall. intros x Hx.
  rewrite List.Forall_forall in Hl. apply Hl.
  exact (Permutation_in _ Hp Hx).
Qed.

Section Sorting.
Context {A : Type} (cmp : A -> A -> num) (key : A -> Z) (P : A -> Prop).
Hypothesis cmp_key :
  forall x y, P x -> P y -> (cmp x y >? 0)%num = (key x <? key y)%Z.

Lemma insert_perm (x : A) (l : list A) :
  Permutation (Compare.insert cmp x l) (x :: l).
Proof using Type.
  induction l as [|y l IH]; cbn [Compare.insert].
  - reflexivity.
  - destruct (cmp x y >? 0)%num.
    + apply perm_trans with (y :: x :: l); [apply perm_skip; exact IH|apply perm_swap].
    + reflexivity.
Qed.

Lemma sort_perm (l : list A) : Permutation (Compare.sort cmp l) l.
Proof using Type.
  induction l as [|x l IH].
  - reflexivity.
  - change (Compare.sort cmp (x :: l)) with (Compare.insert cmp x (Compare.sort cmp l)).
    apply perm_trans with (x :: Compare.sort cmp l); [apply insert_perm|].
    apply perm_skip. exact IH.
Qed.

Lemma insert_sorted (x : A) (l : list A) :
  P x -> Forall P l ->
  StronglySorted (fun a b => (key b <= key a)%Z) l ->
  StronglySorted (fun a b => (key b <= key a)%Z) (Compare.insert cmp x l).
Proof using cmp_key.
  intros Hx Hl Hs. induction Hs as [|y l Hs IH Hy]; cbn [Compare.insert].
  - constructor; constructor.
  - apply Forall_cons_iff in Hl as [Py Hl].
    destruct (cmp x y >? 0)%num eqn:E.
    + rewrite (cmp_key x y Hx Py) in E. apply Z.ltb_lt in E.
      constructor; [apply IH; exact Hl|].
      apply (Forall_perm _ _ _ (insert_perm x l)).
      constructor; [lia|exact Hy].
    + rewrite (cmp_key x y Hx Py) in E. apply Z.ltb_ge in E.
      constructor; [constructor; assumption|].
      constructor; [exact E|].
      revert Hy. apply List.Forall_impl. intros a Ha. lia.
Qed.

Lemma sort_sorted (l : list A) :
  Forall P l ->
  StronglySorted (fun a b => (key b <= key a)%Z) (Compare.sort cmp l).
Proof using cmp_key.
  induction l as [|x l IH]; intros Hl.
  - constructor.
  - change (Compare.sort cmp (x :: l)) with (Compare.insert cmp x (Compare.sort cmp l)).
    apply Forall_cons_iff in Hl as [Px Hl].
    apply insert_sorted; [exact Px| |apply IH; exact Hl].
    apply (Forall_perm _ _ _ (sort_perm l)). exact Hl.
Qed.

(** Elements of equal key keep the order they came in. *)
Lemma insert_stable (k : Z) (x : A) (l : list A) :
  P x -> Forall P l ->
  List.filter (fun a => (key a =? k)%Z) (Compare.insert cmp x l)
  = List.filter (fun a => (key a =? k)%Z) (x :: l).
Proof using cmp_key.
  intros Hx Hl. induction l as [|y l IH].
  - reflexivity.
  - apply Forall_cons_iff in Hl as [Py Hl]. cbn [Compare.insert].
    destruct (cmp x y >? 0)%num eqn:E; [|reflexivity].
    rewrite (cmp_key x y Hx Py) in E. apply Z.ltb_lt in E.
    cbn [List.filter]. rewrite (IH Hl). cbn [List.filter].
    destruct (key y =? k)%Z eqn:Ey; destruct (key x =? k)%Z eqn:Ex;
      try reflexivity.
    apply Z.eqb_eq in Ey, Ex. lia.
Qed.

Lemma sort_stable (k : Z) (l : list A) :
  Forall P l ->
  List.filter (fun a => (key a =? k)%Z) (Compare.sort cmp l)
  = List.filter (fun a => (key a =? k)%Z) l.
Proof using cmp_key.
  induction l as [|x l IH]; intros Hl.
  - reflexivity.
  - apply Forall_cons_iff in Hl as [Px Hl].
    change (Compare.sort cmp (x :: l)) with (Compare.insert cmp x (Compare.sort cmp l)).
    rewrite insert_stable; [|exact Px|].
    + cbn [List.filter]. rewrite (IH Hl). reflexivity.
    + apply (Forall_perm _ _ _ (sort_perm l)). exact Hl.
Qed.

End Sorting.

(** The comparator of the program orders the returned scores by their
    integer value. *)
Lemma by_overall_points (x y : Compare.VendorScore) :
  (exists a, Compare.overallScore x = of_Z a) ->
  (exists b, Compare.overallScore y = of_Z b) ->
  (Compare.by_overall x y >? 0)%num = (Spec.points x <? Spec.points y)%Z.
Proof.
  intros [a Ha] [b Hb]. unfold Compare.by_overall, Spec.points.
  rewrite Ha, Hb. unfold of_Z. rewrite !Qfloor_Z.
  unfold sub, neg, add, gtb, ltb.
  destruct (a <? b)%Z eqn:E.
  - apply Z.ltb_lt in E. apply Qltb_lt. rewrite Zlt_Qlt in E. lra.
  - apply Z.ltb_ge in E. apply Qltb_ge. rewrite Zle_Qle in E. lra.
Qed.

Lemma scores_are_integers (ps : list Proposal) :
  Forall (fun v => exists z, Compare.overallScore v = of_Z z)
         (map (Compare.score ps) ps).
Proof.
  apply List.Forall_forall. intros v Hv. apply in_map_iff in Hv as (p & <- & Hp).
  destruct (score_in_range ps p Hp) as (_ & _ & _ & z & Hz & _). eauto.
Qed.

(** What the comparison returns: the scores of the proposals, sorted. *)
Lemma fallbackCompareProposals_returns (rfp : RFP) (ps : list Proposal) :
  ps <> [] ->
  exists a, Compare.fallbackCompareProposals rfp ps = Returned a
    /\ Compare.vendorScores a
       = Compare.sort Compare.by_overall (map (Compare.score ps) ps).
Proof.
  intros Hne. unfold Compare.fallbackCompareProposals.
  destruct (Compare.sort Compare.by_overall (map (Compare.score ps) ps))
    as [|top others] eqn:Es.
  - exfalso. apply Hne.
    pose proof (sort_perm Compare.by_overall (map (Compare.score ps) ps)) as Hp.
    rewrite Es in Hp. apply Permutation_nil in Hp.
    destruct ps; [reflexivity|discriminate].
  - simpl. eexists. split; reflexivity.
Qed.

Lemma fallbackCompareProposals_scores (rfp : RFP) (ps : list Proposal)
  (a : Compare.Analysis) :
  Compare.fallbackCompareProposals rfp ps = Returned a ->
  Compare.vendorScores a
  = Compare.sort Compare.by_overall (map (Compare.score ps) ps).
Proof.
  unfold Compare.fallbackCompareProposals.
  destruct (Compare.sort Compare.by_overall (map (Compare.score ps) ps) !! 0%nat);
    [|discriminate].
  intros [= <-]. reflexivity.
Qed.

Lemma returned_score_origin (rfp : RFP) (ps : list Proposal)
  (a : Compare.Analysis) (v : Compare.VendorScore) :
  Compare.fallbackCompareProposals rfp ps = Returned a ->
  In v (Compare.vendorScores a) ->
  exists p, In p ps /\ v = Compare.score ps p.
Proof.
  intros Ha Hv. rewrite (fallbackCompareProposals_scores _ _ _ Ha) in Hv.
  apply (Permutation_in _ (sort_perm _ _)) in Hv.
  apply in_map_iff in Hv as (p & <- & Hp). eauto.
Qed.





End Scoring.

Import Docs.







(** ** The generative parser adapter *)

Section Adapters.
Context {host : Host} {service : Adapter.Service}.
Import Adapter.

(** C2 (as amended). For every string input, whenever the regex fallback
    path is taken (the service is not configured, or its call fails), the
    extraction returns the envelope with [success = true] and
    [usedFallback = true] around the result of the regex extractor, whose
    items array has at least one element; when no category pattern
    matched, that array is the single placeholder item "Items as
    specified", of quantity 1, with the first 100 characters of the input
    as its specifications. *)
Theorem C2_fallback_extraction (openai : option client) (userInput : string) :
  Spec.falls_back openai (ExtractRFP (VStr userInput)) ->
  exists r,
    snd (parseRFPFromNaturalLanguage openai (VStr userInput))
    = Returned {| success := true; data := Some (FromFallback r);
                  usedFallback := Some true; error := None |}
    /\ Extract.fallbackParseRFP (VStr userInput) = Returned r
    /\ (1 <= length (Extract.items r))%nat
    /\ (Forall (fun pattern => exec_all pattern userInput = Some [])
               Extract.Patterns.itemPatterns ->
        Extract.items r =
          [ {| Extract.name := "Items as specified";
               Extract.quantity := 1;
               Extract.specifications := substring0 100 userInput |} ]).
Proof.
  intros Hfb.
  destruct (fallbackParseRFP_string_total userInput) as (r & Hr & Hlen & Hnone).
  exists r. split; [|split; [exact Hr|split; [exact Hlen|]]].
  - unfold parseRFPFromNaturalLanguage. destruct openai as [c|]; simpl.
    + destruct Hfb as [message ->]. rewrite Hr. reflexivity.
    + rewrite Hr. reflexivity.
  - intros Hall. apply Hnone. apply collect_items_none. exact Hall.
Qed.

(** The adapters on a string, the parts of the failure policy that hold:
    without a configured service no call is made and the fallback result
    comes back with [usedFallback = true]; with a configured service whose
    call fails, the same after the one call. *)
Lemma adapters_fall_back (openai : option client)
  (userInput emailBody : string) (emailSubject rfpContext : value) :
  Spec.falls_back openai (ExtractRFP (VStr userInput)) ->
  Spec.falls_back openai (ExtractProposal (VStr emailBody) emailSubject rfpContext) ->
  (exists r,
     parseRFPFromNaturalLanguage openai (VStr userInput)
     = (match openai with None => [] | Some _ => [ExtractRFP (VStr userInput)] end,
        Returned (fell_back r))
     /\ Extract.fallbackParseRFP (VStr userInput) = Returned r)
  /\ parseVendorProposal openai (VStr emailBody) emailSubject rfpContext
     = (match openai with
        | None => []
        | Some _ => [ExtractProposal (VStr emailBody) emailSubject rfpContext]
        end,
        Returned (fell_back (Proposals.fallbackParseProposal_string emailBody))).
Proof.
  intros H1 H2. split.
  - destruct (fallbackParseRFP_string_total userInput) as (r & Hr & _).
    exists r. split; [|exact Hr].
    unfold parseRFPFromNaturalLanguage. destruct openai as [c|]; simpl.
    + destruct H1 as [message ->]. rewrite Hr. reflexivity.
    + rewrite Hr. reflexivity.
  - unfold parseVendorProposal. destruct openai as [c|]; simpl.
    + destruct H2 as [message ->]. reflexivity.
    + reflexivity.
Qed.

End Adapters.

Lemma C2_fallback_extraction_witness :
  exists r,
    snd (@Adapter.parseRFPFromNaturalLanguage Examples.service
           (Some Examples.unreachable) (VStr "please quote office supplies"))
    = Returned (Adapter.fell_back r)
    /\ Extract.items r =
         [ {| Extract.name := "Items as specified"; Extract.quantity := 1;
              Extract.specifications := "please quote office supplies" |} ].
Proof.
  destruct (@C2_fallback_extraction Examples.service (Some Examples.unreachable)
              "please quote office supplies")
    as (r & Hr & _ & _ & Hnone).
  - exists "connect ECONNREFUSED". reflexivity.
  - exists r. split; [exact Hr|]. rewrite Hnone.
    + reflexivity.
    + repeat constructor.
Defined.

(** C2, as stated, fails: with a configured service whose call fails, an
    input that is not a string (here the number 42) gives the envelope with
    [success = false]. *)
Lemma C2_counterexample :
  snd (@Adapter.parseRFPFromNaturalLanguage Examples.service
         (Some Examples.unreachable) (VNum 42))
  = Returned {| Adapter.success := false; Adapter.data := None;
                Adapter.usedFallback := None;
                Adapter.error := Some "connect ECONNREFUSED" |}
  /\ ~ (exists e,
          snd (@Adapter.parseRFPFromNaturalLanguage Examples.service
                 (Some Examples.unreachable) (VNum 42)) = Returned e
          /\ Adapter.success e = true).
Proof.
  split; [reflexivity|]. intros (e & He & Hs).
  vm_compute in He. injection He as <-. discriminate.
Qed.

(** C3. Where the code departs from the failure policy: when the argument
    is not a string the fallback throws, and the exception leaves
    [parseVendorProposal] on both paths and [parseRFPFromNaturalLanguage]
    when the service is not configured; only [parseRFPFromNaturalLanguage]
    with a configured, failing service returns the failure envelope. *)
Theorem C3_fallback_exception_escapes :
  @Adapter.parseVendorProposal Examples.host Examples.service
      None (VNum 42) (VStr "RE: RFP") (VStr "Laptops")
    = ([], Threw type_error)
  /\ @Adapter.parseVendorProposal Examples.host Examples.service
      (Some Examples.unreachable) (VNum 42) (VStr "RE: RFP") (VStr "Laptops")
    = ([Adapter.ExtractProposal (VNum 42) (VStr "RE: RFP") (VStr "Laptops")],
       Threw type_error)
  /\ @Adapter.parseRFPFromNaturalLanguage Examples.service None (VNum 42)
    = ([], Threw type_error)
  /\ @Adapter.parseRFPFromNaturalLanguage Examples.service
      (Some Examples.unreachable) (VNum 42)
    = ([Adapter.ExtractRFP (VNum 42)],
       Returned (Adapter.failed "connect ECONNREFUSED")).
Proof. repeat split; reflexivity. Qed.

(** ** E-mail templating *)

Lemma append_assoc (a b c : string) : (a ++ b) ++ c = a ++ (b ++ c).
Proof. induction a as [|x a IH]; simpl; [reflexivity|]. rewrite IH. reflexivity. Qed.

Lemma chars_app (a b : string) : chars (a ++ b) = (chars a ++ chars b)%list.
Proof. induction a as [|x a IH]; simpl; [reflexivity|]. f_equal. exact IH. Qed.

Lemma text_chars (s : string) : text (chars s) = s.
Proof. apply string_of_list_ascii_of_string. Qed.

Lemma eqc_refl (c : ascii) : eqc c c = true.
Proof. apply Nat.eqb_refl. Qed.

Lemma starts_with_app (p r : list ascii) : starts_with p (p ++ r) = true.
Proof.
  induction p as [|c p IH]; simpl; [reflexivity|].
  rewrite eqc_refl. exact IH.
Qed.

(** Splitting into lines undoes joining with line feeds, for texts that
    hold no line feed. *)
Lemma lines_from_single (cur a : list ascii) :
  forallb (fun c => negb (eqc c (ascii_of_nat 10))) a = true ->
  Email.lines_from cur a = [text (rev cur ++ a)].
Proof.
  revert cur. induction a as [|c a IH]; intros cur Ha; simpl.
  - rewrite app_nil_r. reflexivity.
  - simpl in Ha. apply andb_true_iff in Ha as [Hc Ha].
    apply negb_true_iff in Hc. rewrite Hc. rewrite (IH _ Ha). simpl.
    rewrite <- app_assoc. reflexivity.
Qed.

Lemma lines_from_break (cur a rest : list ascii) :
  forallb (fun c => negb (eqc c (ascii_of_nat 10))) a = true ->
  Email.lines_from cur (a ++ ascii_of_nat 10 :: rest)
  = text (rev cur ++ a) :: Email.lines_from [] rest.
Proof.
  revert cur. induction a as [|c a IH]; intros cur Ha.
  - rewrite app_nil_r. reflexivity.
  - simpl in Ha. apply andb_true_iff in Ha as [Hc Ha].
    apply negb_true_iff in Hc.
    change (Email.lines_from cur ((c :: a) ++ ascii_of_nat 10 :: rest))
      with (if eqc c (ascii_of_nat 10)
            then text (rev cur) :: Email.lines_from [] (a ++ ascii_of_nat 10 :: rest)
            else Email.lines_from (c :: cur) (a ++ ascii_of_nat 10 :: rest)).
    rewrite Hc. rewrite (IH _ Ha). simpl. rewrite <- app_assoc. reflexivity.
Qed.

Lemma lines_join (x : string) (ls : list string) :
  Forall (fun l => Email.single_line l = true) (x :: ls) ->
  Email.lines (join Email.nl (x :: ls)) = x :: ls.
Proof.
  revert x. induction ls as [|y ls IH]; intros x Hall.
  - apply Forall_cons_iff in Hall as [Hx _]. unfold Email.lines. simpl.
    rewrite (lines_from_single [] (chars x) Hx). simpl. rewrite text_chars.
    reflexivity.
  - apply Forall_cons_iff in Hall as [Hx Hrest].
    change (join Email.nl (x :: y :: ls))
      with (x ++ Email.nl ++ join Email.nl (y :: ls)).
    unfold Email.lines. rewrite chars_app.
    change (chars (Email.nl ++ join Email.nl (y :: ls)))
      with (ascii_of_nat 10 :: chars (join Email.nl (y :: ls))).
    rewrite (lines_from_break [] (chars x) _ Hx). simpl. rewrite text_chars.
    f_equal. apply (IH y Hrest).
Qed.

Section Templating.
Context {host : Host}.

Lemma item_line_prefix (it : Item) :
  exists rest, Email.item_line it = "  " ++ Email.bullet ++ " " ++ rest.
Proof. unfold Email.item_line. eexists. reflexivity. Qed.

Lemma item_line_is_item_line (it : Item) :
  Email.is_item_line (Email.item_line it) = true.
Proof.
  destruct (item_line_prefix it) as [rest ->]. unfold Email.is_item_line.
  replace ("  " ++ Email.bullet ++ " " ++ rest)
    with (("  " ++ Email.bullet ++ " ") ++ rest) by reflexivity.
  rewrite (chars_app ("  " ++ Email.bullet ++ " ") rest).
  apply starts_with_app.
Qed.

Lemma join_item_lines_nonempty (it : Item) (rest : list Item) :
  nonempty (join Email.nl (map Email.item_line (it :: rest))) = true.
Proof.
  destruct (item_line_prefix it) as [tail Ht].
  destruct rest as [|it2 rest]; cbn [map join]; rewrite Ht; reflexivity.
Qed.


End Templating.



(** ** The comparison endpoint *)

Section Endpoint.
Context {host : Host} {service : Adapter.Service}.
Import Controller.


(** Whatever the single proposal's vendor reference is, the engine is not
    invoked. *)
Lemma single_proposal_engine_idle
  (openai : option Adapter.client) (db : Store) (id : string)
  (rfp : RFP) (only : Proposal) :
  findById db id = Returned (Some rfp) ->
  findParsed db id = Returned [only] ->
  fst (compareProposals openai db id) = [ReadRFP id; ReadProposals id].
Proof.
  intros Hrfp Hps. unfold compareProposals, emit, vendor_of.
  rewrite Hrfp. cbn. rewrite Hps. cbn.
  destruct (Docs.vendorId only); reflexivity.
Qed.

End Endpoint.


(* ================================================================== *)
(** * Further properties of the scoring engine *)
(* ================================================================== *)

Section ScoringOrder.
Context {host : Host}.

Lemma total_price_q (p : Proposal) (x : Q) :
  Compare.total p = Some x -> (0 < x)%Q -> Spec.price_q p = x.
Proof.
  intros Hp Hx. unfold Spec.price_q. rewrite Hp.
  destruct (Qzero x) eqn:E; [|reflexivity].
  apply Qzero_eq in E. rewrite E in Hx. exfalso. revert Hx. apply Qlt_irrefl.
Qed.

(** The price score of a positively priced proposal, spelled out: the
    extremes and the divisor depend on the list only. *)
Lemma rawPriceScore_spelled (ps : list Proposal) (p : Proposal) :
  In p ps -> (0 < Spec.price_q p)%Q ->
  exists lo hi d,
    Compare.minPrice ps = Fin lo /\ Compare.maxPrice ps = Fin hi
    /\ ((Fin hi - Fin lo) || 1)%num = Fin d
    /\ (0 < d)%Q /\ (lo <= Spec.price_q p)%Q /\ (Spec.price_q p <= hi)%Q
    /\ (Spec.price_q p + - lo <= d)%Q
    /\ (~ (hi + - lo == 0)%Q -> d = (hi + - lo)%Q)
    /\ Compare.rawPriceScore ps p
       = of_Z (Qfloor (100 + - ((Spec.price_q p + - lo) / d * 50) + (1 # 2))).
Proof.
  intros Hin Hpos.
  destruct (extremes_of_priced ps p Hin Hpos) as (lo & hi & Hlo & _ & Hhi & _ & Hle & Hge).
  assert (Hden : exists d, ((Fin hi - Fin lo) || 1)%num = Fin d
                   /\ (0 < d)%Q /\ (Spec.price_q p + - lo <= d)%Q
                   /\ (~ (hi + - lo == 0)%Q -> d = (hi + - lo)%Q)).
  { unfold sub, neg, add, or_else, truthy.
    destruct (Qzero (hi + - lo)) eqn:Ez; simpl.
    - apply Qzero_eq in Ez. exists 1%Q. split; [reflexivity|].
      split; [lra|]. split; [lra|]. intros Hn. contradiction.
    - apply Qzero_neq in Ez. exists (hi + - lo)%Q. split; [reflexivity|].
      split; [|split; [lra|reflexivity]].
      destruct (Qlt_le_dec 0 (hi + - lo)) as [Hlt|Hle']; [exact Hlt|].
      exfalso. apply Ez. lra. }
  destruct Hden as (d & Hd & Hdpos & Hnd & Hdeq).
  exists lo, hi, d. repeat (split; [assumption|]).
  unfold Compare.rawPriceScore.
  assert (E : (Compare.price p >? 0)%num = true).
  { rewrite price_is. apply gtb_zero. exact Hpos. }
  rewrite E, Hlo, Hhi, Hd, price_is.
  assert (Hdz : Qzero d = false).
  { apply Qzero_neq. intros Ed. rewrite Ed in Hdpos. revert Hdpos. apply Qlt_irrefl. }
  unfold sub, neg, add, div, mul. rewrite Hdz. reflexivity.
Qed.

Lemma clamp_monotone (a b : Z) :
  (a <= b)%Z ->
  exists x y, Compare.clamp (of_Z a) = of_Z x /\ Compare.clamp (of_Z b) = of_Z y
              /\ (x <= y)%Z.
Proof.
  intros Hab. rewrite !clamp_of_Z. eexists. eexists.
  split; [reflexivity|]. split; [reflexivity|]. lia.
Qed.


Lemma Qdiv_le_60 (x y : Q) : (x <= y)%Q -> (x / 60 <= y / 60)%Q.
Proof.
  intros H. unfold Qdiv. apply Qmult_le_compat_r; [exact H|]. discriminate.
Qed.

(** X2. Fewer stated delivery days never give a lower delivery score. *)
Theorem delivery_score_monotone (ps : list Proposal) (p q : Proposal) (x y : Q) :
  Compare.days p = Some x -> Compare.days q = Some y ->
  (0 < x)%Q -> (x <= y)%Q -> (y < 999)%Q ->
  exists a b,
    Compare.deliveryScore (Compare.score ps p) = of_Z a
    /\ Compare.deliveryScore (Compare.score ps q) = of_Z b
    /\ (b <= a)%Z.
Proof.
  intros Dp Dq Hx Hxy Hy.
  assert (Ep : Spec.days_q p = x).
  { unfold Spec.days_q. rewrite Dp. destruct (Qzero x) eqn:E; [|reflexivity].
    apply Qzero_eq in E. lra. }
  assert (Eq : Spec.days_q q = y).
  { unfold Spec.days_q. rewrite Dq. destruct (Qzero y) eqn:E; [|reflexivity].
    apply Qzero_eq in E. lra. }
  cbn [Compare.deliveryScore Compare.score].
  rewrite !rawDeliveryScore_formula, Ep, Eq.
  assert (Lx : Qltb x 999 = true) by (apply Qltb_lt; lra).
  assert (Ly : Qltb y 999 = true) by (apply Qltb_lt; exact Hy).
  rewrite Lx, Ly.
  destruct (clamp_monotone
              (Qfloor (100 + - (y / 60 * 50) + (1 # 2)))
              (Qfloor (100 + - (x / 60 * 50) + (1 # 2))))
    as (b & a & Hb & Ha & Hba).
  - apply Qfloor_resp_le. pose proof (Qdiv_le_60 x y Hxy). lra.
  - exists a, b. split; [exact Ha|]. split; [exact Hb|exact Hba].
Qed.

(** X3. A stated delivery of 61 to 998 days scores strictly below a
    proposal that states no delivery at all, which scores 50. *)
Theorem slow_delivery_below_unstated (ps : list Proposal) (p q : Proposal) (x : Q) :
  Compare.days p = Some x -> (61 <= x)%Q -> (x < 999)%Q ->
  Compare.days q = None ->
  Compare.deliveryScore (Compare.score ps q) = 50%num
  /\ exists a, Compare.deliveryScore (Compare.score ps p) = of_Z a
               /\ (0 <= a < 50)%Z.
Proof.
  intros Dp Hlo Hhi Dq. split.
  - cbn [Compare.deliveryScore Compare.score].
    unfold Compare.rawDeliveryScore, Compare.delivery. rewrite Dq. reflexivity.
  - assert (Ep : Spec.days_q p = x).
    { unfold Spec.days_q. rewrite Dp. destruct (Qzero x) eqn:E; [|reflexivity].
      apply Qzero_eq in E. lra. }
    cbn [Compare.deliveryScore Compare.score].
    rewrite rawDeliveryScore_formula, Ep.
    assert (Lx : Qltb x 999 = true) by (apply Qltb_lt; exact Hhi).
    rewrite Lx, clamp_of_Z. eexists. split; [reflexivity|].
    assert (Hz : (Qfloor (100 + - (x / 60 * 50) + (1 # 2)) <= 49)%Z).
    { assert (Hlt : (inject_Z (Qfloor (100 + - (x / 60 * 50) + (1 # 2)))
                     < inject_Z 50)%Q).
      { apply Qle_lt_trans with (100 + - (x / 60 * 50) + (1 # 2))%Q;
          [apply Qfloor_le|].
        change (inject_Z 50) with 50%Q.
        pose proof (Qdiv_le_60 61 x Hlo) as H61.
        assert (E61 : (61 / 60 == 61 # 60)%Q) by reflexivity.
        rewrite E61 in H61. lra. }
      rewrite <- Zlt_Qlt in Hlt. lia. }
    lia.
Qed.

(** The two extremes are prices of proposals of the list, and bound the
    others. *)
Lemma price_extremes_attained (ps : list Proposal) (p : Proposal) :
  In p ps -> (0 < Spec.price_q p)%Q ->
  exists f g,
    In f ps /\ Spec.has_price f = true /\ In g ps
    /\ Compare.minPrice ps = Fin (Spec.price_q f)
    /\ Compare.maxPrice ps = Fin (Spec.price_q g)
    /\ (forall q, In q ps -> Spec.has_price q = true ->
          (Spec.price_q f <= Spec.price_q q)%Q)
    /\ (forall q, In q ps -> (Spec.price_q q <= Spec.price_q g)%Q).
Proof.
  intros Hin Hpos.
  destruct (extremes_of_priced ps p Hin Hpos) as (lo & hi & Hlo & _ & Hhi & _ & _ & Hge).
  assert (Hf : In p (List.filter (fun pr => Spec.has_price pr) ps)).
  { apply filter_In. split; [exact Hin|]. apply positive_has_price. exact Hpos. }
  assert (Hmin : exists f, In f ps /\ Spec.has_price f = true
                   /\ lo = Spec.price_q f
                   /\ forall q, In q ps -> Spec.has_price q = true ->
                        (Spec.price_q f <= Spec.price_q q)%Q).
  { unfold Compare.minPrice in Hlo.
    change (fun pr => has_num (Compare.total pr)) with (fun pr => Spec.has_price pr) in Hlo.
    assert (Hmap : map (fun pr => to_num (Compare.total pr))
                       (List.filter (fun pr => Spec.has_price pr) ps)
                   = map Fin (map Spec.price_q
                                  (List.filter (fun pr => Spec.has_price pr) ps))).
    { rewrite map_map. apply map_ext_in. intros a Ha.
      apply filter_In in Ha as [_ Ha]. apply has_price_nonzero in Ha as [Ha _]. exact Ha. }
    rewrite Hmap in Hlo.
    destruct (List.filter (fun pr => Spec.has_price pr) ps) as [|a l] eqn:Ef; [destruct Hf|].
    destruct (min_of_fin (Spec.price_q a) (map Spec.price_q l)) as (m & Hm & Hmem & Hle).
    change (map Fin (map Spec.price_q (a :: l)))
      with (map Fin (Spec.price_q a :: map Spec.price_q l)) in Hlo.
    rewrite Hm in Hlo.
    change (In m (map Spec.price_q (a :: l))) in Hmem.
    apply in_map_iff in Hmem as (f & Hfm & Hfin).
    rewrite <- Ef in Hfin. apply filter_In in Hfin as [Hfps Hfhas].
    assert (Hmz : Qzero m = false).
    { rewrite <- Hfm. apply has_price_nonzero in Hfhas as [_ Hz]. exact Hz. }
    unfold or_else, truthy in Hlo. rewrite Hmz in Hlo. simpl in Hlo.
    injection Hlo as Hlo.
    exists f. split; [exact Hfps|]. split; [exact Hfhas|].
    split; [rewrite Hfm; symmetry; exact Hlo|].
    intros q Hq Hqhas. rewrite Hfm. apply Hle.
    change (In (Spec.price_q q) (map Spec.price_q (a :: l))).
    apply in_map. rewrite <- Ef. apply filter_In. split; assumption. }
  assert (Hmax : exists g, In g ps /\ hi = Spec.price_q g
                   /\ forall q, In q ps -> (Spec.price_q q <= Spec.price_q g)%Q).
  { unfold Compare.maxPrice in Hhi. rewrite prices_are in Hhi.
    destruct ps as [|a l]; [destruct Hin|].
    destruct (max_of_fin (Spec.price_q a) (map Spec.price_q l)) as (m & Hm & Hmem & Hle).
    change (map Fin (map Spec.price_q (a :: l)))
      with (map Fin (Spec.price_q a :: map Spec.price_q l)) in Hhi.
    rewrite Hm in Hhi.
    change (In m (map Spec.price_q (a :: l))) in Hmem.
    apply in_map_iff in Hmem as (g & Hgm & Hgin).
    assert (Hmz : Qzero m = false).
    { apply Qzero_neq. intros E.
      assert (Hpm : (Spec.price_q p <= m)%Q).
      { apply Hle. change (In (Spec.price_q p) (map Spec.price_q (a :: l))).
        apply in_map. exact Hin. }
      rewrite E in Hpm. apply (Qlt_irrefl 0).
      apply Qlt_le_trans with (Spec.price_q p); assumption. }
    unfold or_else, truthy in Hhi. rewrite Hmz in Hhi. simpl in Hhi.
    injection Hhi as Hhi.
    exists g. split; [exact Hgin|]. split; [rewrite Hgm; symmetry; exact Hhi|].
    intros q Hq. rewrite Hgm. apply Hle.
    change (In (Spec.price_q q) (map Spec.price_q (a :: l))).
    apply in_map. exact Hq. }
  destruct Hmin as (f & Hf1 & Hf2 & Hf3 & Hf4).
  destruct Hmax as (g & Hg1 & Hg2 & Hg3).
  exists f, g. subst lo hi. repeat (split; [assumption|]). assumption.
Qed.

Lemma price_q_of_total (q : Proposal) (y : Q) :
  Compare.total q = Some y -> ~ (y == 0)%Q ->
  Spec.has_price q = true /\ Spec.price_q q = y.
Proof.
  intros Hq Hy. apply Qzero_neq in Hy.
  unfold Spec.has_price, has_num, Spec.price_q, truthy. rewrite Hq, Hy.
  split; reflexivity.
Qed.



Lemma filter_head_split {A : Type} (f : A -> bool) (l : list A) (y : A) (rest : list A) :
  List.filter f l = y :: rest ->
  exists pre post, l = (pre ++ y :: post)%list
    /\ (forall x, In x pre -> f x = false) /\ f y = true.
Proof.
  induction l as [|a l IH]; [discriminate|]. cbn [List.filter].
  destruct (f a) eqn:E.
  - intros [= -> _]. exists [], l. split; [reflexivity|].
    split; [intros x []|exact E].
  - intros H. destruct (IH H) as (pre & post & -> & Hpre & Hy).
    exists (a :: pre), post. split; [reflexivity|]. split; [|exact Hy].
    intros x [<-|Hx]; [exact E|apply Hpre; exact Hx].
Qed.


(** X7. An empty proposal list makes the fallback comparison throw: there
    is no first score to recommend.  The adapter lets the exception out
    whenever it reaches the fallback. *)
Theorem empty_comparison_throws {service : Adapter.Service}
  (openai : option Adapter.client) (rfp : RFP) :
  Spec.falls_back openai (Adapter.CompareAll rfp []) ->
  Compare.fallbackCompareProposals rfp [] = Threw type_error
  /\ snd (Adapter.compareProposals openai rfp []) = Threw type_error.
Proof.
  intros Hfb. split; [reflexivity|].
  unfold Adapter.compareProposals. destruct openai as [c|]; simpl.
  - destruct Hfb as [message ->]. reflexivity.
  - reflexivity.
Qed.

End ScoringOrder.

(* ================================================================== *)
(** * Further properties of the regex extraction *)
(* ================================================================== *)

Lemma run_capture_free (r : regex) :
  Shape.capture_free r = true ->
  forall s caps t c, In (t, c) (run r s caps) -> c = caps.
Proof.
  induction r as [p|p|p|p|r1 IH1 r2 IH2|r1 IH1 r2 IH2|i r IH| |];
    intros Hcf s caps t c; simpl in *.
  - destruct s as [|a s]; [intros []|]. destruct (p a); [|intros []].
    intros [[= _ <-]|[]]. reflexivity.
  - rewrite in_map_iff. intros (u & [= _ <-] & _). reflexivity.
  - destruct s as [|a s]; [intros []|]. destruct (p a); [|intros []].
    rewrite in_map_iff. intros (u & [= _ <-] & _). reflexivity.
  - destruct s as [|a s].
    + intros [[= _ <-]|[]]. reflexivity.
    + destruct (p a).
      * intros [[= _ <-]|[[= _ <-]|[]]]; reflexivity.
      * intros [[= _ <-]|[]]. reflexivity.
  - apply andb_true_iff in Hcf as [H1 H2].
    rewrite in_flat_map. intros ([u d] & Hu & Ht).
    rewrite (IH2 H2 _ _ _ _ Ht). exact (IH1 H1 _ _ _ _ Hu).
  - apply andb_true_iff in Hcf as [H1 H2].
    rewrite in_app_iff. intros [Ht|Ht]; [exact (IH1 H1 _ _ _ _ Ht)|exact (IH2 H2 _ _ _ _ Ht)].
  - discriminate.
  - destruct s; [|intros []]. intros [[= _ <-]|[]]. reflexivity.
  - intros [[= _ <-]|[]]. reflexivity.
Qed.

(** What [p*] leaves is the input without a prefix in the class. *)
Lemma star_rests_prefix (p : ascii -> bool) (s t : list ascii) :
  In t (star_rests p s) ->
  exists pre, s = (pre ++ t)%list /\ forallb p pre = true.
Proof.
  revert t. induction s as [|c s IH]; intros t; simpl.
  - intros [<-|[]]. exists []. split; reflexivity.
  - destruct (p c) eqn:E.
    + rewrite in_app_iff. intros [Ht|[<-|[]]].
      * destruct (IH _ Ht) as (pre & -> & Hpre).
        exists (c :: pre). split; [reflexivity|]. simpl. rewrite E. exact Hpre.
      * exists []. split; reflexivity.
    + intros [<-|[]]. exists []. split; reflexivity.
Qed.

Lemma take_prefix {A : Type} (pre t : list A) :
  take (length (pre ++ t) - length t) (pre ++ t) = pre.
Proof.
  rewrite length_app. replace (length pre + length t - length t)%nat
    with (length pre) by lia.
  apply take_app_length.
Qed.

(** A match of [(\d+)\s*(k1|k2|...)], the keywords without groups, records
    two groups, and the first holds decimal digits. *)
Lemma run_counted (keywords : list regex) (s t : list ascii) (c : captures) :
  Shape.capture_free (alt_all keywords) = true ->
  In (t, c) (run (Extract.Patterns.counted keywords) s []) ->
  exists ds g, c = [(2%nat, g); (1%nat, ds)] /\ Shape.digits ds.
Proof.
  intros Hcf. unfold Extract.Patterns.counted.
  cbn [cat_all run]. rewrite in_flat_map.
  intros ([t1 c1] & H1 & H2).
  apply in_map_iff in H1 as ([u1 d1] & [= <- <-] & Hu1).
  assert (Hds : d1 = [] /\ Shape.digits (take (length s - length u1) s)).
  { destruct s as [|a s]; [destruct Hu1|].
    destruct (is_digit a) eqn:Ea; [|unfold digit in Hu1; rewrite Ea in Hu1; destruct Hu1].
    unfold digit in Hu1. rewrite Ea in Hu1.
    apply in_map_iff in Hu1 as (u & [= <- <-] & Hu).
    apply star_rests_prefix in Hu as (pre & -> & Hpre).
    split; [reflexivity|].
    change (a :: (pre ++ u)%list) with (((a :: pre) ++ u)%list).
    rewrite take_prefix. split; [discriminate|]. simpl. rewrite Ea. exact Hpre. }
  destruct Hds as [-> Hds].
  apply in_flat_map in H2 as ([t2 c2] & H3 & H4).
  apply in_map_iff in H3 as (u2 & [= <- <-] & _).
  apply in_map_iff in H4 as ([u3 d3] & [= <- <-] & Hu3).
  apply (run_capture_free _ Hcf) in Hu3. subst d3.
  eexists. eexists. split; [reflexivity|exact Hds].
Qed.

Lemma digit_not_space (c : ascii) : is_digit c = true -> is_space c = false.
Proof.
  unfold is_digit, is_space. intros H. apply andb_true_iff in H as [H1 H2].
  apply Nat.leb_le in H1, H2.
  repeat (apply orb_false_iff; split).
  - apply andb_false_iff. right. apply Nat.leb_gt. lia.
  - apply Nat.eqb_neq. lia.
  - apply Nat.eqb_neq. lia.
Qed.

Lemma digit_not_sign (c : ascii) :
  is_digit c = true -> eqc c "-" = false /\ eqc c "+" = false.
Proof.
  unfold is_digit, eqc. intros H. apply andb_true_iff in H as [H1 H2].
  apply Nat.leb_le in H1, H2.
  change (code "-") with 45%nat. change (code "+") with 43%nat.
  split; apply Nat.eqb_neq; lia.
Qed.

Lemma take_while_all (p : ascii -> bool) (l : list ascii) :
  forallb p l = true -> take_while p l = l.
Proof.
  induction l as [|c l IH]; simpl; [reflexivity|].
  intros H. apply andb_true_iff in H as [Hc Hl]. rewrite Hc, (IH Hl). reflexivity.
Qed.

Lemma decimal_nonneg (ds : list ascii) : (0 <= decimal ds)%Z.
Proof.
  unfold decimal.
  assert (G : forall acc, (0 <= acc)%Z ->
            (0 <= fold_left (fun a c => (10 * a + digit_val c)%Z) ds acc)%Z).
  { induction ds as [|c ds IH]; intros acc Hacc; simpl; [exact Hacc|].
    apply IH. unfold digit_val. lia. }
  apply G. lia.
Qed.

(** [parseInt] of decimal digits is a whole number, zero or more. *)
Lemma parseInt_digits (ds : list ascii) :
  Shape.digits ds -> Shape.natural (parseInt (text ds)).
Proof.
  intros [Hne Hall]. unfold parseInt, chars, text.
  rewrite list_ascii_of_string_of_list_ascii.
  destruct ds as [|c ds]; [contradiction|].
  pose proof Hall as Hall'. simpl in Hall'.
  apply andb_true_iff in Hall' as [Hc _].
  cbn [drop_while]. rewrite (digit_not_space c Hc).
  destruct (digit_not_sign c Hc) as [-> ->].
  rewrite (take_while_all _ _ Hall).
  exists (1 * decimal (c :: ds))%Z. split; [reflexivity|].
  pose proof (decimal_nonneg (c :: ds)). lia.
Qed.

Lemma group_str_counted (m : rmatch) (ds g : list ascii) :
  caps_of m = [(2%nat, g); (1%nat, ds)] -> group_str 1 m = text ds.
Proof. intros H. unfold group_str, group. rewrite H. reflexivity. Qed.

(** Every match the [exec] loop and the first-match search return is a
    first way of matching the pattern somewhere. *)
Lemma exec_loop_heads (r : regex) (s : list ascii) :
  forall idx skip ms, exec_loop r s idx skip = Some ms ->
  forall m, In m ms -> exists s' rest l, run r s' [] = (rest, caps_of m) :: l.
Proof.
  induction s as [|a s IH]; intros idx skip ms.
  - destruct skip as [|k]; simpl.
    + destruct (run r [] []) as [|[t c] l] eqn:Hr.
      * intros [= <-] m [].
      * discriminate.
    + intros [= <-] m [].
  - destruct skip as [|k]; simpl; [|apply IH].
    destruct (run r (a :: s) []) as [|[t c] l] eqn:Hr; [apply IH|].
    destruct (S (length s) - length t)%nat as [|k] eqn:Hk; [discriminate|].
    destruct (exec_loop r s (S idx) k) as [ms'|] eqn:Hms; [|discriminate].
    intros [= <-] m [<-|Hm].
    + exists (a :: s), t, l. exact Hr.
    + exact (IH _ _ _ Hms m Hm).
Qed.

Lemma search_head (r : regex) (s : list ascii) :
  forall idx m, search r s idx = Some m ->
  exists s' rest l, run r s' [] = (rest, caps_of m) :: l.
Proof.
  induction s as [|a s IH]; intros idx m; simpl.
  - destruct (run r [] []) as [|[t c] l] eqn:Hr; [discriminate|].
    intros [= <-]. exists [], t, l. exact Hr.
  - destruct (run r (a :: s) []) as [|[t c] l] eqn:Hr; [apply IH|].
    intros [= <-]. exists (a :: s), t, l. exact Hr.
Qed.

Lemma counted_head_quantity (keywords : list regex) (m : rmatch) :
  Shape.capture_free (alt_all keywords) = true ->
  (exists s' rest l,
     run (Extract.Patterns.counted keywords) s' [] = (rest, caps_of m) :: l) ->
  Shape.natural (parseInt (group_str 1 m)).
Proof.
  intros Hcf (s' & rest & l & Hr).
  assert (Hin : In (rest, caps_of m) (run (Extract.Patterns.counted keywords) s' []))
    by (rewrite Hr; left; reflexivity).
  destruct (run_counted _ _ _ _ Hcf Hin) as (ds & g & Hc & Hds).
  rewrite (group_str_counted m ds g Hc). apply parseInt_digits. exact Hds.
Qed.

Lemma item_patterns_counted :
  Forall (fun r => exists keywords,
            r = Extract.Patterns.counted keywords
            /\ Shape.capture_free (alt_all keywords) = true)
         Extract.Patterns.itemPatterns.
Proof. repeat constructor; eexists; split; reflexivity. Qed.

Lemma collect_items_quantities (patterns : list regex) :
  Forall (fun r => exists keywords,
            r = Extract.Patterns.counted keywords
            /\ Shape.capture_free (alt_all keywords) = true) patterns ->
  forall userInput acc l,
    Extract.collect_items patterns userInput acc = Returned l ->
    Forall (fun it => Shape.natural (Extract.quantity it)) acc ->
    Forall (fun it => Shape.natural (Extract.quantity it)) l.
Proof.
  induction 1 as [|r rest (keywords & -> & Hcf) _ IH]; intros userInput acc l; simpl.
  - intros [= <-] Hacc. exact Hacc.
  - destruct (exec_all (Extract.Patterns.counted keywords) userInput) as [ms|] eqn:Hms;
      simpl; [|discriminate].
    intros Hl Hacc. apply (IH _ _ _ Hl).
    apply Forall_app. split; [exact Hacc|].
    apply List.Forall_forall. intros it Hit.
    apply in_map_iff in Hit as (m & <- & Hm).
    apply (counted_head_quantity keywords m Hcf).
    exact (exec_loop_heads _ _ _ _ _ Hms m Hm).
Qed.

Lemma Forall_alter_keeps {A : Type} (P : A -> Prop) (f : A -> A) (i : nat) (l : list A) :
  (forall x, P x -> P (f x)) -> Forall P l -> Forall P (alter f i l).
Proof.
  intros Hf Hl. revert i. induction Hl as [|x l Hx Hl IH]; intros i.
  - destruct i; constructor.
  - destruct i as [|i]; simpl.
    + constructor; [apply Hf; exact Hx|exact Hl].
    + constructor; [exact Hx|apply IH].
Qed.


Lemma delivery_match_days (keywords : list regex) (s : string) (m : rmatch) :
  Shape.capture_free (alt_all keywords) = true ->
  str_match (Extract.Patterns.counted keywords) s = Some m ->
  Shape.natural
    (if includes (group_str 2 m) "week"
     then (parseInt (group_str 1 m) * 7)%num
     else parseInt (group_str 1 m)).
Proof.
  intros Hcf Hm. unfold str_match in Hm.
  pose proof (counted_head_quantity keywords m Hcf (search_head _ _ _ _ Hm))
    as (z & Hz & Hz0).
  rewrite Hz. destruct (includes (group_str 2 m) "week").
  - exists (z * 7)%Z. split; [reflexivity|lia].
  - exists z. split; [reflexivity|exact Hz0].
Qed.


(* ================================================================== *)
(** * Further properties of the adapters *)
(* ================================================================== *)

Section AdapterPolicy.
Context {host : Host} {service : Adapter.Service}.
Import Adapter.

(** X10. No adapter calls the service more than once, and none calls it
    when it is not configured: there is no retry. *)
Theorem single_attempt (openai : option Generate.client)
  (userInput emailBody emailSubject rfpContext : value)
  (rfp : RFP) (proposals : list Proposal) (vendorName : string) :
  let attempts :=
    [ length (fst (parseRFPFromNaturalLanguage (Generate.narrow openai) userInput));
      length (fst (parseVendorProposal (Generate.narrow openai)
                     emailBody emailSubject rfpContext));
      length (fst (compareProposals (Generate.narrow openai) rfp proposals));
      length (fst (Generate.generateRFPEmail openai rfp vendorName)) ] in
  Forall (fun n => (n <= 1)%nat) attempts
  /\ (openai = None -> Forall (fun n => n = 0%nat) attempts).
Proof.
  cbv zeta.
  assert (H3 : (length (fst (compareProposals (Generate.narrow openai) rfp proposals))
                <= 1)%nat
               /\ (openai = None ->
                   length (fst (compareProposals (Generate.narrow openai) rfp proposals))
                   = 0%nat)).
  { unfold compareProposals. destruct openai as [c|]; cbn [Generate.narrow].
    - split; [|discriminate].
      destruct (proposalDetails proposals); cbn; lia.
    - split; [cbn; lia|reflexivity]. }
  assert (H4 : (length (fst (Generate.generateRFPEmail openai rfp vendorName)) <= 1)%nat
               /\ (openai = None ->
                   length (fst (Generate.generateRFPEmail openai rfp vendorName)) = 0%nat)).
  { unfold Generate.generateRFPEmail. destruct openai as [c|].
    - split; [|discriminate]. destruct (items rfp); cbn; lia.
    - split; [cbn; lia|reflexivity]. }
  destruct H3 as [H3 H3'], H4 as [H4 H4']. split.
  - constructor; [destruct openai; cbn; lia|].
    constructor; [destruct openai; cbn; lia|].
    constructor; [exact H3|]. constructor; [exact H4|constructor].
  - intros E. constructor; [rewrite E; reflexivity|].
    constructor; [rewrite E; reflexivity|].
    constructor; [exact (H3' E)|]. constructor; [exact (H4' E)|constructor].
Qed.

(** X11. Three of the adapters never answer with a failure envelope:
    whenever [parseVendorProposal], [compareProposals] or
    [generateRFPEmail] returns, [success] is true.  (Their callers' branch
    for [success = false] cannot be taken.) *)
Theorem no_failure_envelope (openai : option Generate.client)
  (emailBody emailSubject rfpContext : value)
  (rfp : RFP) (proposals : list Proposal) (vendorName : string) :
  match snd (parseVendorProposal (Generate.narrow openai)
               emailBody emailSubject rfpContext) with
  | Returned e => success e = true
  | _ => True
  end
  /\ match snd (compareProposals (Generate.narrow openai) rfp proposals) with
     | Returned e => success e = true
     | _ => True
     end
  /\ match snd (Generate.generateRFPEmail openai rfp vendorName) with
     | Returned e => success e = true
     | _ => True
     end.
Proof.
  repeat split.
  - unfold parseVendorProposal. destruct openai as [c|]; cbn [Generate.narrow snd].
    + match goal with |- context [complete ?a ?b] => destruct (complete a b) end;
        try exact I; [reflexivity|].
      destruct (Proposals.fallbackParseProposal emailBody); cbn; trivial.
    + destruct (Proposals.fallbackParseProposal emailBody); cbn; trivial.
  - unfold compareProposals. destruct openai as [c|]; cbn [Generate.narrow snd].
    + destruct (proposalDetails proposals); cbn [snd]; try exact I.
      match goal with |- context [complete ?a ?b] => destruct (complete a b) end;
        try exact I; [reflexivity|].
      destruct (Compare.fallbackCompareProposals rfp proposals); cbn; trivial.
    + destruct (Compare.fallbackCompareProposals rfp proposals); cbn; trivial.
  - unfold Generate.generateRFPEmail. destruct openai as [c|]; cbn [snd];
      [|reflexivity].
    destruct (items rfp); cbn [snd]; [|exact I].
    destruct (c (Generate.Compose rfp vendorName)); try exact I; [|reflexivity].
    destruct (JSON_parse a); reflexivity.
Qed.

Lemma proposalDetails_missing (proposals : list Proposal) :
  (exists p, In p proposals /\ Docs.vendorId p = Missing) ->
  proposalDetails proposals = Threw type_error.
Proof.
  induction proposals as [|q rest IH]; intros (p & Hin & Hp); [destruct Hin|].
  cbn [proposalDetails]. unfold vendor_id_strict at 1.
  destruct Hin as [<-|Hin].
  - rewrite Hp. reflexivity.
  - destruct (Docs.vendorId q); cbn;
      try rewrite (IH (ex_intro _ p (conj Hin Hp))); reflexivity.
Qed.

(** X12. A proposal whose vendor no longer exists splits the two paths of
    the comparison adapter: with a configured service it throws a
    [TypeError] before the service is called; without one it returns the
    fallback analysis. *)
Theorem dangling_vendor_comparison (c : client) (rfp : RFP)
  (proposals : list Proposal) (p : Proposal) :
  In p proposals -> Docs.vendorId p = Missing ->
  compareProposals (Some c) rfp proposals = ([], Threw type_error)
  /\ exists a,
       Compare.fallbackCompareProposals rfp proposals = Returned a
       /\ compareProposals None rfp proposals = ([], Returned (fell_back a))
       /\ In (Compare.score proposals p) (Compare.vendorScores a)
       /\ Compare.vendorName (Compare.score proposals p) = "Unknown Vendor".
Proof.
  intros Hin Hp. split.
  - unfold compareProposals.
    rewrite (proposalDetails_missing proposals (ex_intro _ p (conj Hin Hp))).
    reflexivity.
  - assert (Hne : proposals <> []) by (intros ->; destruct Hin).
    destruct (fallbackCompareProposals_returns rfp proposals Hne) as (a & Ha & Hs).
    exists a. split; [exact Ha|]. split.
    + unfold compareProposals. rewrite Ha. reflexivity.
    + split.
      * rewrite Hs. apply (Permutation_in _ (Permutation_sym (sort_perm _ _))).
        apply in_map. exact Hin.
      * cbn. unfold Compare.name_of. rewrite Hp. reflexivity.
Qed.

(** X13. An RFP without an items array splits the two paths of the e-mail
    adapter the same way: with a configured service it throws a
    [TypeError] before the service is called; without one it returns the
    fallback e-mail, whose items section is the placeholder line. *)
Theorem missing_items_email (c : Generate.client) (rfp : RFP) (vendorName : string) :
  items rfp = None ->
  Generate.generateRFPEmail (Some c) rfp vendorName = ([], Threw type_error)
  /\ Generate.generateRFPEmail None rfp vendorName
     = ([], Returned (fell_back (Email.fallbackGenerateEmail rfp vendorName)))
  /\ Email.itemsList rfp = "  " ++ Email.bullet ++ " As per requirements".
Proof.
  intros Hitems. unfold Generate.generateRFPEmail, Email.itemsList.
  rewrite Hitems. repeat split; reflexivity.
Qed.

End AdapterPolicy.

(* ================================================================== *)
(** * Further properties of the comparison endpoint *)
(* ================================================================== *)

Section ComparisonEndpoint.
Context {host : Host} {service : Adapter.Service}.
Import Controller.

Lemma update_all_done (db : Store) (id : string) (vs : list Compare.VendorScore) :
  (forall v, In v vs -> findOneAndUpdate db id v = Returned tt) ->
  update_all db id vs = (map (WriteScores id) vs, Returned tt).
Proof.
  induction vs as [|v vs IH]; intros Hok; [reflexivity|].
  cbn [update_all]. unfold emit. rewrite (Hok v (or_introl eq_refl)).
  cbn. rewrite IH; [reflexivity|].
  intros x Hx. apply Hok. right. exact Hx.
Qed.

Lemma update_all_stops (db : Store) (id : string)
  (done rest : list Compare.VendorScore) (v : Compare.VendorScore) (e : string) :
  (forall x, In x done -> findOneAndUpdate db id x = Returned tt) ->
  findOneAndUpdate db id v = Threw e ->
  update_all db id (done ++ v :: rest)
  = (map (WriteScores id) (done ++ [v]), Threw e).
Proof.
  induction done as [|x done IH]; intros Hok Hv.
  - cbn [app update_all]. unfold emit. rewrite Hv. reflexivity.
  - cbn [app update_all]. unfold emit. rewrite (Hok x (or_introl eq_refl)).
    cbn. rewrite IH; [reflexivity| |exact Hv].
    intros y Hy. apply Hok. right. exact Hy.
Qed.

(** What the endpoint does once the RFP and two or more proposals are
    read, the service not being configured: the engine is the fallback
    comparison. *)
Lemma compare_with_fallback (db : Store) (id : string) (rfp : RFP)
  (ps : list Proposal) (a : Compare.Analysis) :
  findById db id = Returned (Some rfp) ->
  findParsed db id = Returned ps ->
  (2 <= length ps)%nat ->
  Compare.fallbackCompareProposals rfp ps = Returned a ->
  compareProposals None db id =
    try_catch
      (let '(t, r) :=
         (_ ← update_all db id (Compare.vendorScores a);
          _ ← emit (WriteStatus id "evaluated") (save db id "evaluated");
          pure {| status := 200; success := true; message := None;
                  error := None;
                  data := Some (Compared (Adapter.FromFallback a)) |}) in
       (([ReadRFP id; ReadProposals id; InvokeEngine rfp ps] ++ t)%list, r))
      (fun message => pure (refuse 500 "Error comparing proposals" (Some message))).
Proof.
  intros Hrfp Hps Hlen Ha.
  destruct ps as [|p1 [|p2 rest]]; [simpl in Hlen; lia|simpl in Hlen; lia|].
  unfold compareProposals at 1, emit. rewrite Hrfp.
  cbn [mbind io_bind]. rewrite Hps. cbn [mbind io_bind].
  unfold engine, Adapter.compareProposals. rewrite Ha. cbn.
  destruct (update_all db id (Compare.vendorScores a)) as [t [[]|e|]];
    cbn; try reflexivity.
  destruct (save db id "evaluated") as [[]|e|]; cbn; reflexivity.
Qed.



End ComparisonEndpoint.

(* ================================================================== *)
(** * Further properties of the endpoints *)
(* ================================================================== *)

Section EndpointBoundary.
Context {host : Host} {service : Adapter.Service} {reader : Endpoints.Reader}
        {transport : Mailer.Transport}.

Lemma controller_try_catch_contains (m : Controller.io Controller.Response)
  (f : string -> Controller.Response) (e : string) :
  snd (Controller.try_catch m (fun msg => Controller.pure (f msg))) <> Threw e.
Proof. destruct m as [t [a|e'|]]; cbn; discriminate. Qed.

Lemma endpoints_try_catch_contains {A : Type} (m : Endpoints.io A)
  (f : string -> A) (e : string) :
  snd (Endpoints.try_catch m (fun msg => Endpoints.pure (f msg))) <> Threw e.
Proof. destruct m as [t [a|e'|]]; cbn; discriminate. Qed.


Lemma controller_trace_bind {A B : Type} (m : Controller.io A)
  (k : A -> Controller.io B) (ev : Controller.event) :
  In ev (fst (m ≫= k)) ->
  In ev (fst m) \/ exists a, snd m = Returned a /\ In ev (fst (k a)).
Proof.
  destruct m as [t [a|e|]]; cbn; [|auto|auto].
  destruct (k a) as [t' r] eqn:Hk. cbn. rewrite in_app_iff.
  intros [H|H]; [left; exact H|].
  right. exists a. split; [reflexivity|]. rewrite Hk. exact H.
Qed.

Lemma controller_trace_try_catch {A : Type} (m : Controller.io A)
  (f : string -> A) :
  fst (Controller.try_catch m (fun msg => Controller.pure (f msg))) = fst m.
Proof. destruct m as [t [a|e|]]; cbn; [reflexivity| |reflexivity]. apply app_nil_r. Qed.

Lemma update_all_only_writes (db : Controller.Store) (id : string)
  (vs : list Compare.VendorScore) (r : RFP) (ps : list Proposal) :
  ~ In (Controller.InvokeEngine r ps) (fst (Controller.update_all db id vs)).
Proof.
  induction vs as [|v vs IH]; [intros []|].
  cbn [Controller.update_all]. intros H.
  apply controller_trace_bind in H as [H|(a & _ & H)].
  - destruct H as [H|[]]. discriminate.
  - exact (IH H).
Qed.

(** X17. The comparison engine is only ever invoked with the RFP that was
    found and with two or more parsed proposals (so never with the empty
    list, on which it throws). *)
Theorem engine_needs_two_proposals (openai : option Adapter.client)
  (db : Controller.Store) (id : string) (r : RFP) (ps : list Proposal) :
  In (Controller.InvokeEngine r ps) (fst (Controller.compareProposals openai db id)) ->
  Controller.findById db id = Returned (Some r)
  /\ Controller.findParsed db id = Returned ps
  /\ (2 <= length ps)%nat.
Proof.
  unfold Controller.compareProposals. rewrite controller_trace_try_catch.
  intros H. apply controller_trace_bind in H as [H|(found & Hfound & H)].
  { destruct H as [H|[]]. discriminate. }
  cbn in Hfound. destruct found as [rfp|]; [|destruct H].
  apply controller_trace_bind in H as [H|(proposals & Hps & H)].
  { destruct H as [H|[]]. discriminate. }
  cbn in Hps.
  destruct proposals as [|p1 [|p2 rest]].
  - destruct H.
  - apply controller_trace_bind in H as [H|([vid vname] & _ & H)].
    + unfold Controller.vendor_of in H. destruct (Docs.vendorId p1); destruct H.
    + destruct H.
  - apply controller_trace_bind in H as [H|(res & _ & H)].
    + unfold Controller.engine in H.
      destruct (Adapter.compareProposals openai rfp (p1 :: p2 :: rest)) as [calls o].
      destruct H as [H|H].
      * injection H as H1 H2. subst r ps.
        split; [exact Hfound|]. split; [exact Hps|]. simpl. lia.
      * apply in_map_iff in H as (c & Hc & _). discriminate.
    + exfalso. destruct (negb (Adapter.success res)); [destruct H|].
      apply controller_trace_bind in H as [H|(vs & _ & H)].
      * unfold Controller.scores_of in H.
        destruct (Adapter.data res) as [[j|a]|]; destruct H.
      * apply controller_trace_bind in H as [H|(u & _ & H)].
        -- exact (update_all_only_writes _ _ _ _ _ H).
        -- apply controller_trace_bind in H as [H|(u' & _ & H)].
           ++ destruct H as [H|[]]. discriminate.
           ++ destruct (Adapter.data res); destruct H.
Qed.

End EndpointBoundary.

Section RfpEndpoints.
Context {host : Host} {service : Adapter.Service} {reader : Endpoints.Reader}
        {transport : Mailer.Transport}.
Import Endpoints.

(** X18. The creation endpoint on an input that is not a text: a falsy
    value is refused with 400 before the parser is called; any other value
    ends in 500 without a document being inserted, as "Error creating RFP"
    when the service is not configured (the parser's [TypeError] is caught
    here) and as "Failed to parse RFP" when the service is configured and
    its call fails. *)
Theorem createRFP_refuses_non_text (db : Store) (input : value) :
  (forall s, input = VStr s -> s = "") ->
  (truthy_value input = false ->
     forall openai,
       createRFP openai db input
       = ([], Returned (refuse 400 "Natural language input is required" None)))
  /\ (truthy_value input = true ->
        createRFP None db input
        = ([CallParser input],
           Returned (refuse 500 "Error creating RFP" (Some type_error)))
        /\ forall c message,
             c (Generate.Parse (Adapter.ExtractRFP input)) = Threw message ->
             createRFP (Some c) db input
             = ([CallParser input;
                 AskService (Generate.Parse (Adapter.ExtractRFP input))],
                Returned (refuse 500 "Failed to parse RFP" (Some message)))).
Proof.
  intros Hnot. split.
  - intros Hf openai. unfold createRFP. rewrite Hf. reflexivity.
  - intros Ht.
    assert (Hthrow : Extract.fallbackParseRFP input = Threw type_error).
    { destruct input; try reflexivity.
      rewrite (Hnot s eq_refl) in Ht. discriminate. }
    split.
    + unfold createRFP, parse, Adapter.parseRFPFromNaturalLanguage. rewrite Ht.
      cbn [negb Generate.narrow]. rewrite Hthrow. reflexivity.
    + intros c message Hc.
      unfold createRFP, parse, Adapter.parseRFPFromNaturalLanguage, Adapter.complete.
      rewrite Ht. cbn [negb Generate.narrow]. rewrite Hc, Hthrow. reflexivity.
Qed.

(** X19. The creation endpoint on a text, on the fallback path, the store
    accepting the document: it answers 201, having inserted one draft
    whose data is the result of the regex extractor (so with at least one
    item) and whose original input is the text.  The deadline is set
    exactly when delivery days were found and are not 0. *)
Theorem createRFP_saves_draft (openai : option Generate.client) (db : Store)
  (userInput : string) (id : string) :
  nonempty userInput = true ->
  Spec.falls_back (Generate.narrow openai) (Adapter.ExtractRFP (VStr userInput)) ->
  (forall doc, insert db doc = Returned id) ->
  exists r doc,
    Extract.fallbackParseRFP (VStr userInput) = Returned r
    /\ (1 <= length (Extract.items r))%nat
    /\ doc = {| parsed := Adapter.FromFallback r;
                originalInput := VStr userInput;
                status := "draft";
                deadlineDays :=
                  match Extract.deliveryDays r with
                  | Some n => if truthy n then Some (VNum n) else None
                  | None => None
                  end |}
    /\ snd (createRFP openai db (VStr userInput))
       = Returned {| code := 201; success := true;
                     message := "RFP created successfully";
                     error := None; data := Some (Created id doc) |}
    /\ List.filter (fun ev => match ev with Insert _ => true | _ => false end)
                   (fst (createRFP openai db (VStr userInput)))
       = [Insert doc].
Proof.
  intros Hne Hfb Hins.
  destruct (fallbackParseRFP_string_total userInput) as (r & Hr & Hlen & _).
  exists r. eexists. split; [exact Hr|]. split; [exact Hlen|].
  split; [reflexivity|].
  unfold createRFP, parse, Adapter.parseRFPFromNaturalLanguage.
  cbn [truthy_value]. rewrite Hne. cbn [negb].
  destruct openai as [c|]; cbn [Generate.narrow].
  - destruct Hfb as [message Hc]. cbn [Generate.narrow] in Hc. rewrite Hc.
    cbn [Extract.fallbackParseRFP]. rewrite Hr.
    cbn [mbind io_bind map negb Adapter.success Adapter.fell_back Adapter.data
         lift read_deliveryDays app].
    destruct (Extract.deliveryDays r) as [n|]; cbn [truthy_value].
    + destruct (truthy n); unfold emit; rewrite Hins; cbn; split; reflexivity.
    + unfold emit. rewrite Hins. cbn. split; reflexivity.
  - cbn [Extract.fallbackParseRFP]. rewrite Hr.
    cbn [mbind outcome_bind io_bind map negb Adapter.success Adapter.fell_back
         Adapter.data lift read_deliveryDays app].
    destruct (Extract.deliveryDays r) as [n|]; cbn [truthy_value].
    + destruct (truthy n); unfold emit; rewrite Hins; cbn; split; reflexivity.
    + unfold emit. rewrite Hins. cbn. split; reflexivity.
Qed.

Lemma send_all_fallback (rfp : RFP) (vendors : list SelectedVendor) :
  (forall m, Mailer.sendMail m <> Diverged) ->
  send_all None rfp vendors
  = (map HandToTransport (map (Expected.fallback_mail rfp) vendors),
     Returned (map (Expected.fallback_report rfp) vendors)).
Proof.
  intros Hlive. induction vendors as [|v rest IH]; [reflexivity|].
  cbn [send_all]. rewrite IH.
  unfold generate, Generate.generateRFPEmail, send, Mailer.sendEmail.
  cbn [map mbind io_bind Adapter.success Adapter.fell_back lift read_mail
       Adapter.data app].
  unfold Expected.fallback_report.
  change (Expected.fallback_mail rfp v)
    with {| Mailer.from := Mailer.sender;
            Mailer.to := email v;
            Mailer.subject := VStr (Email.subject (Email.fallbackGenerateEmail rfp (name v)));
            Mailer.text := VStr (Email.body (Email.fallbackGenerateEmail rfp (name v)));
            Mailer.html := replace_all Mailer.line_feed "<br>"
                             (Email.body (Email.fallbackGenerateEmail rfp (name v)));
            Mailer.attachments := [] |}.
  match goal with |- context [Mailer.sendMail ?m] =>
    pose proof (Hlive m) as Hm; destruct (Mailer.sendMail m) as [i|e|] end;
    [|  |contradiction];
    unfold pure; cbn [mbind io_bind Mailer.success Mailer.error app];
    rewrite app_nil_r; reflexivity.
Qed.


End RfpEndpoints.

(* ================================================================== *)
(** * Properties of the e-mail service *)
(* ================================================================== *)

Lemma some_address_strings (ves : list string) (a : string) :
  Mailer.some_address (map VStr ves) a
  = Returned (existsb (fun ve => String.eqb (toLowerCase ve) a) ves).
Proof.
  induction ves as [|ve rest IH]; [reflexivity|].
  cbn [map Mailer.some_address Mailer.same_address mbind outcome_bind existsb].
  destruct (String.eqb (toLowerCase ve) a); [reflexivity|exact IH].
Qed.

Lemma some_address_not_string (pre : list string) (v : value) (rest : list value)
  (a : string) :
  (forall s, v <> VStr s) ->
  existsb (fun ve => String.eqb (toLowerCase ve) a) pre = false ->
  Mailer.some_address (map VStr pre ++ v :: rest) a = Threw type_error.
Proof.
  intros Hv. induction pre as [|ve pre IH]; intros Hpre.
  - cbn [map app Mailer.some_address]. destruct v; try reflexivity.
    exfalso. exact (Hv s eq_refl).
  - cbn [existsb] in Hpre. apply orb_false_iff in Hpre as [Hve Hpre].
    cbn [map app Mailer.some_address Mailer.same_address mbind outcome_bind].
    rewrite Hve. exact (IH Hpre).
Qed.

Lemma from_vendors_strings (ves : list string) (emails : list Mailer.Inbound) :
  Mailer.from_vendors (map VStr ves) emails
  = Returned (List.filter (Expected.from_known ves) emails).
Proof.
  induction emails as [|email rest IH]; [reflexivity|].
  cbn [Mailer.from_vendors List.filter]. rewrite some_address_strings, IH.
  unfold Expected.from_known. cbn [mbind outcome_bind].
  destruct (existsb _ ves); reflexivity.
Qed.

(** X21. With the vendors' addresses all strings, the check for replies
    succeeds and answers with exactly the fetched messages whose sender's
    address is, case apart, one of the vendors' addresses, in the order
    they were fetched. *)
Theorem replies_from_known_vendors (ves : list string)
  (emails : list Mailer.Inbound) :
  Mailer.checkForVendorResponses (Returned emails) (map VStr ves)
  = Returned {| Mailer.checked := true;
                Mailer.responses := Some (List.filter (Expected.from_known ves) emails);
                Mailer.checkError := None |}.
Proof.
  unfold Mailer.checkForVendorResponses. cbn [mbind outcome_bind].
  rewrite from_vendors_strings. reflexivity.
Qed.

(** X22. One vendor address that is not a string makes the whole check
    fail, with the [TypeError] as its message, as soon as a message is
    fetched that no address listed before it matches: the other replies
    are not reported.  With an empty inbox the same addresses pass. *)
Theorem vendor_without_address_fails_check (pre : list string) (v : value)
  (rest : list value) (email : Mailer.Inbound) (emails : list Mailer.Inbound) :
  (forall s, v <> VStr s) ->
  Expected.from_known pre email = false ->
  Mailer.checkForVendorResponses (Returned (email :: emails))
    (map VStr pre ++ v :: rest)
  = Returned {| Mailer.checked := false; Mailer.responses := None;
                Mailer.checkError := Some type_error |}
  /\ Mailer.checkForVendorResponses (Returned []) (map VStr pre ++ v :: rest)
     = Returned {| Mailer.checked := true; Mailer.responses := Some [];
                   Mailer.checkError := None |}.
Proof.
  intros Hv Hpre. split; [|reflexivity].
  unfold Mailer.checkForVendorResponses.
  cbn [mbind outcome_bind Mailer.from_vendors].
  rewrite (some_address_not_string pre v rest _ Hv Hpre). reflexivity.
Qed.

Section MailService.
Context {transport : Mailer.Transport}.
Import Mailer.

(** X23. The service's loop over the vendors, for a body that is a string
    and a transport that answers: one mail per vendor is handed to the
    transport, in order, addressed to that vendor with the given subject
    and body and no attachment; one result per vendor is returned, in
    order, and it tells whether the transport took that vendor's mail.  A
    mail the transport rejects does not stop the loop. *)
Theorem service_send_loop (vendors : list Recipient) (subject : value)
  (b : string) :
  (forall m, sendMail m <> Diverged) ->
  exists mails results,
    sendRFPToVendors vendors subject (VStr b) = (mails, Returned results)
    /\ map to mails = map email vendors
    /\ Forall (fun m => Mailer.subject m = subject /\ text m = VStr b
                        /\ attachments m = []) mails
    /\ map vendorId results = map _id vendors
    /\ map vendorName results = map name vendors
    /\ map vendorEmail results = map email vendors
    /\ Forall2 (fun m r =>
                  result r
                  = match sendMail m with
                    | Returned id =>
                        {| success := true; messageId := Some id; error := None |}
                    | Threw message =>
                        {| success := false; messageId := None;
                           error := Some message |}
                    | Diverged => result r
                    end)
               mails results.
Proof.
  intros Hlive. induction vendors as [|v rest IH].
  - exists [], []. repeat split; constructor.
  - destruct IH as (mails & results & Hrun & Hto & Hmail & Hid & Hname & Hemail & Hres).
    cbn [sendRFPToVendors]. rewrite Hrun. unfold sendEmail. cbn [map].
    match goal with |- context [sendMail ?m] =>
      pose proof (Hlive m) as Hm; destruct (sendMail m) as [i|e|] eqn:Hsend end;
      [| |contradiction].
    + eexists. eexists. split; [reflexivity|].
      cbn [app map vendorId vendorName vendorEmail to].
      rewrite Hto, Hid, Hname, Hemail. split; [reflexivity|].
      split; [constructor; [repeat split|exact Hmail]|].
      repeat (split; [reflexivity|]).
      constructor; [|exact Hres]. rewrite Hsend. reflexivity.
    + eexists. eexists. split; [reflexivity|].
      cbn [app map vendorId vendorName vendorEmail to].
      rewrite Hto, Hid, Hname, Hemail. split; [reflexivity|].
      split; [constructor; [repeat split|exact Hmail]|].
      repeat (split; [reflexivity|]).
      constructor; [|exact Hres]. rewrite Hsend. reflexivity.
Qed.

(** X24. With a body that is not a string the service's loop hands nothing
    to the transport and does not throw: every vendor is reported as
    failed, with the [TypeError] as the error. *)
Theorem service_send_without_text (vendors : list Recipient)
  (subject body : value) :
  (forall s, body <> VStr s) ->
  sendRFPToVendors vendors subject body
  = ([], Returned (map (fun v =>
                          {| vendorId := _id v; vendorName := name v;
                             vendorEmail := email v;
                             result := {| success := false; messageId := None;
                                          error := Some type_error |} |})
                       vendors)).
Proof.
  intros Hbody. induction vendors as [|v rest IH]; [reflexivity|].
  cbn [sendRFPToVendors]. rewrite IH.
  destruct body; try reflexivity. exfalso. exact (Hbody s eq_refl).
Qed.

End MailService.

(* ================================================================== *)
(** * The extracted budget *)
(* ================================================================== *)

Lemma run_within (Q : ascii -> Prop) (r : regex) :
  Shape.within Q r ->
  forall s caps t c, In (t, c) (run r s caps) ->
  exists pre, s = (pre ++ t)%list /\ Forall Q pre.
Proof.
  induction r as [p|p|p|p|r1 IH1 r2 IH2|r1 IH1 r2 IH2|i r1 IH1| |];
    intros Hw s caps t c; cbn [run Shape.within] in *.
  - destruct s as [|a s]; [intros []|].
    destruct (p a) eqn:E; [|intros []].
    intros [[= <- <-]|[]]. exists [a]. split; [reflexivity|].
    constructor; [apply Hw; exact E|constructor].
  - intros H. apply in_map_iff in H as (t' & [= <- <-] & Ht).
    destruct (star_rests_prefix _ _ _ Ht) as (pre & -> & Hpre).
    exists pre. split; [reflexivity|].
    apply List.Forall_forall. intros x Hx. apply Hw.
    rewrite forallb_forall in Hpre. apply Hpre. exact Hx.
  - destruct s as [|a s]; [intros []|].
    destruct (p a) eqn:E; [|intros []].
    intros H. apply in_map_iff in H as (t' & [= <- <-] & Ht).
    destruct (star_rests_prefix _ _ _ Ht) as (pre & -> & Hpre).
    exists (a :: pre). split; [reflexivity|].
    constructor; [apply Hw; exact E|].
    apply List.Forall_forall. intros x Hx. apply Hw.
    rewrite forallb_forall in Hpre. apply Hpre. exact Hx.
  - destruct s as [|a s].
    + intros [[= <- <-]|[]]. exists []. split; [reflexivity|constructor].
    + destruct (p a) eqn:E.
      * intros [[= <- <-]|[[= <- <-]|[]]].
        -- exists [a]. split; [reflexivity|].
           constructor; [apply Hw; exact E|constructor].
        -- exists []. split; [reflexivity|constructor].
      * intros [[= <- <-]|[]]. exists []. split; [reflexivity|constructor].
  - destruct Hw as [Hw1 Hw2]. intros H.
    apply in_flat_map in H as ([t1 c1] & H1 & H2).
    destruct (IH1 Hw1 _ _ _ _ H1) as (pre1 & -> & Hp1).
    destruct (IH2 Hw2 _ _ _ _ H2) as (pre2 & -> & Hp2).
    exists (pre1 ++ pre2)%list. split; [apply app_assoc|].
    apply Forall_app. split; assumption.
  - destruct Hw as [Hw1 Hw2]. intros H. apply in_app_iff in H as [H|H].
    + exact (IH1 Hw1 _ _ _ _ H).
    + exact (IH2 Hw2 _ _ _ _ H).
  - intros H. apply in_map_iff in H as ([t1 c1] & [= <- <-] & H1).
    exact (IH1 Hw _ _ _ _ H1).
  - destruct s; [|intros []]. intros [[= <- <-]|[]].
    exists []. split; [reflexivity|constructor].
  - intros [[= <- <-]|[]]. exists []. split; [reflexivity|constructor].
Qed.

Lemma matched_within (Q : ascii -> Prop) (r : regex) (s t : list ascii)
  (c : captures) (l : list (list ascii * captures)) :
  Shape.within Q r -> run r s [] = (t, c) :: l ->
  Forall Q (chars (text (take (length s - length t) s))).
Proof.
  intros Hw Hr.
  destruct (run_within Q r Hw s [] t c) as (pre & -> & Hpre);
    [rewrite Hr; left; reflexivity|].
  rewrite take_prefix. unfold chars, text.
  rewrite list_ascii_of_string_of_list_ascii. exact Hpre.
Qed.

Lemma search_within (Q : ascii -> Prop) (r : regex) (s : list ascii) :
  Shape.within Q r ->
  forall idx m, search r s idx = Some m -> Forall Q (chars (whole m)).
Proof.
  intros Hw. induction s as [|a s IH]; intros idx m; cbn [search].
  - destruct (run r [] []) as [|[t c] l] eqn:Hr; [discriminate|].
    intros [= <-]. cbn [whole]. exact (matched_within Q r _ _ _ _ Hw Hr).
  - destruct (run r (a :: s) []) as [|[t c] l] eqn:Hr; [apply IH|].
    intros [= <-]. cbn [whole]. exact (matched_within Q r _ _ _ _ Hw Hr).
Qed.

(** Replacing every match by the empty string only removes characters. *)
Lemma replace_loop_removes (Q : ascii -> Prop) (r : regex) (s : list ascii) :
  Forall Q s -> forall skip, Forall Q (replace_loop r [] s skip).
Proof.
  induction 1 as [|c s Hc Hs IH]; intros skip; cbn [replace_loop].
  - destruct skip; [|constructor]. destruct (run r [] []); constructor.
  - destruct skip as [|k]; [|apply IH].
    destruct (run r (c :: s) []) as [|[rest caps] l].
    + constructor; [exact Hc|apply IH].
    + destruct (length (c :: s) - length rest)%nat; cbn [app].
      * constructor; [exact Hc|apply IH].
      * apply IH.
Qed.

Lemma not_minus (p : ascii -> bool) :
  p "-"%char = false -> forall c, p c = true -> Shape.no_minus c.
Proof.
  intros Hp c Hc. unfold Shape.no_minus.
  destruct (eqc c "-") eqn:E; [|reflexivity].
  apply Nat.eqb_eq in E. unfold code in E.
  assert (Hcm : c = "-"%char).
  { rewrite <- (ascii_nat_embedding c), E. reflexivity. }
  rewrite Hcm in Hc. rewrite Hp in Hc. discriminate.
Qed.

Lemma drop_while_keeps (Q : ascii -> Prop) (p : ascii -> bool) (s : list ascii) :
  Forall Q s -> Forall Q (drop_while p s).
Proof.
  induction 1 as [|c s Hc Hs IH]; cbn [drop_while]; [constructor|].
  destruct (p c); [exact IH|]. constructor; assumption.
Qed.

(** [parseInt] of a text without a minus sign: a whole number, zero or
    more, or [NaN]. *)
Lemma parseInt_no_minus (s : string) :
  Forall Shape.no_minus (chars s) ->
  parseInt s = NaN \/ Shape.natural (parseInt s).
Proof.
  intros Hs. unfold parseInt.
  pose proof (drop_while_keeps _ is_space _ Hs) as Hbody.
  destruct (drop_while is_space (chars s)) as [|c body].
  - left. reflexivity.
  - apply Forall_cons_iff in Hbody as [Hc _]. unfold Shape.no_minus in Hc.
    rewrite Hc.
    assert (G : forall rest : list ascii,
              match take_while is_digit rest with
              | [] => NaN
              | d :: ds => of_Z (1 * decimal (d :: ds))
              end = NaN
              \/ Shape.natural
                   match take_while is_digit rest with
                   | [] => NaN
                   | d :: ds => of_Z (1 * decimal (d :: ds))
                   end).
    { intros rest. destruct (take_while is_digit rest) as [|d ds];
        [left; reflexivity|].
      right. exists (1 * decimal (d :: ds))%Z. split; [reflexivity|].
      pose proof (decimal_nonneg (d :: ds)). lia. }
    destruct (eqc c "+"); apply G.
Qed.

Lemma budget_within : Shape.within Shape.no_minus Extract.Patterns.budget.
Proof.
  cbn -[Shape.no_minus]. repeat split; apply not_minus; reflexivity.
Qed.


(* ================================================================== *)
(** * Properties of the simulation endpoint *)
(* ================================================================== *)

Section SimulationEndpoint.
Context {host : Host} {service : Adapter.Service}.
Import Endpoints Stored Simulation.



End SimulationEndpoint.

(* ================================================================== *)
(** * The further properties on concrete inputs *)
(* ================================================================== *)


Lemma delivery_score_monotone_witness :
  exists a b,
    Compare.deliveryScore
      (@Compare.score Examples.host []
         (Examples.proposal "Acme" (Some 5000%Q) (Some 10%Q) None)) = of_Z a
    /\ Compare.deliveryScore
         (@Compare.score Examples.host []
            (Examples.proposal "Bolt" (Some 5000%Q) (Some 45%Q) None)) = of_Z b
    /\ (b <= a)%Z.
Proof.
  apply (@delivery_score_monotone Examples.host _ _ _ 10%Q 45%Q).
  - reflexivity.
  - reflexivity.
  - reflexivity.
  - discriminate.
  - reflexivity.
Defined.

Lemma slow_delivery_below_unstated_witness :
  Compare.deliveryScore
    (@Compare.score Examples.host []
       (Examples.proposal "Bolt" (Some 5000%Q) None None)) = 50%num
  /\ exists a,
       Compare.deliveryScore
         (@Compare.score Examples.host []
            (Examples.proposal "Acme" (Some 5000%Q) (Some 90%Q) None)) = of_Z a
       /\ (0 <= a < 50)%Z.
Proof.
  apply (@slow_delivery_below_unstated Examples.host _ _ _ 90%Q).
  - reflexivity.
  - discriminate.
  - reflexivity.
  - reflexivity.
Defined.




Lemma empty_comparison_throws_witness :
  @Compare.fallbackCompareProposals Examples.host Examples.no_rfp []
  = Threw type_error
  /\ snd (@Adapter.compareProposals Examples.host Examples.service
            (Some Examples.unreachable) Examples.no_rfp [])
     = Threw type_error.
Proof.
  apply (@empty_comparison_throws Examples.host Examples.service).
  exists "connect ECONNREFUSED". reflexivity.
Defined.

Lemma dangling_vendor_comparison_witness :
  let ps := [ Examples.proposal "Acme" (Some 8000%Q) (Some 30%Q) None;
              Samples.orphan 5000%Q ] in
  @Adapter.compareProposals Examples.host Examples.service
     (Some Examples.unreachable) (Examples.rfp_with []) ps
  = ([], Threw type_error)
  /\ exists a,
       @Compare.fallbackCompareProposals Examples.host (Examples.rfp_with []) ps
       = Returned a
       /\ @Adapter.compareProposals Examples.host Examples.service
            None (Examples.rfp_with []) ps
          = ([], Returned (Adapter.fell_back a))
       /\ In (@Compare.score Examples.host ps (Samples.orphan 5000%Q))
             (Compare.vendorScores a)
       /\ Compare.vendorName (@Compare.score Examples.host ps (Samples.orphan 5000%Q))
          = "Unknown Vendor".
Proof.
  cbv zeta. apply (@dangling_vendor_comparison Examples.host Examples.service).
  - right. left. reflexivity.
  - reflexivity.
Defined.

Lemma missing_items_email_witness :
  @Generate.generateRFPEmail Examples.host Examples.service
     (Some (fun _ => Threw "connect ECONNREFUSED")) Samples.no_items "Acme"
  = ([], Threw type_error)
  /\ @Generate.generateRFPEmail Examples.host Examples.service
       None Samples.no_items "Acme"
     = ([], Returned (Adapter.fell_back
                        (@Email.fallbackGenerateEmail Examples.host
                           Samples.no_items "Acme")))
  /\ @Email.itemsList Examples.host Samples.no_items
     = "  " ++ Email.bullet ++ " As per requirements".
Proof.
  apply (@missing_items_email Examples.host Examples.service). reflexivity.
Defined.



Lemma engine_needs_two_proposals_witness :
  let ps := [ Examples.proposal "Acme" (Some 8000%Q) (Some 30%Q) None;
              Examples.proposal "Bolt" (Some 5000%Q) (Some 30%Q) None ] in
  Controller.findById (Examples.store ps) "rfp-1"
  = Returned (Some (Examples.rfp_with []))
  /\ Controller.findParsed (Examples.store ps) "rfp-1" = Returned ps
  /\ (2 <= length ps)%nat.
Proof.
  cbv zeta.
  apply (@engine_needs_two_proposals Examples.host Examples.service None).
  vm_compute. right. right. left. reflexivity.
Defined.

Lemma createRFP_refuses_non_text_witness :
  @Endpoints.createRFP Examples.service Samples.reader None
     (Samples.rfps []) (VNum 42)
  = ([Endpoints.CallParser (VNum 42)],
     Returned (Endpoints.refuse 500 "Error creating RFP" (Some type_error))).
Proof.
  destruct (@createRFP_refuses_non_text Examples.service Samples.reader
              (Samples.rfps []) (VNum 42)) as [_ H].
  - intros s E. discriminate E.
  - apply H. reflexivity.
Defined.

Lemma createRFP_saves_draft_witness :
  exists r (doc : @Endpoints.NewRFP Examples.service),
    Extract.fallbackParseRFP (VStr Examples.scenario) = Returned r
    /\ (1 <= length (Extract.items r))%nat
    /\ doc = {| Endpoints.parsed := Adapter.FromFallback r;
                Endpoints.originalInput := VStr Examples.scenario;
                Endpoints.status := "draft";
                Endpoints.deadlineDays :=
                  match Extract.deliveryDays r with
                  | Some n => if truthy n then Some (VNum n) else None
                  | None => None
                  end |}
    /\ snd (@Endpoints.createRFP Examples.service Samples.reader None
              (Samples.rfps []) (VStr Examples.scenario))
       = Returned {| Endpoints.code := 201; Endpoints.success := true;
                     Endpoints.message := "RFP created successfully";
                     Endpoints.error := None;
                     Endpoints.data := Some (Endpoints.Created "rfp-1" doc) |}
    /\ List.filter (fun ev => match ev with Endpoints.Insert _ => true | _ => false end)
                   (fst (@Endpoints.createRFP Examples.service Samples.reader None
                           (Samples.rfps []) (VStr Examples.scenario)))
       = [Endpoints.Insert doc].
Proof.
  apply (@createRFP_saves_draft Examples.service Samples.reader None
           (Samples.rfps []) Examples.scenario "rfp-1").
  - reflexivity.
  - exact I.
  - intros doc. reflexivity.
Defined.


Lemma vendor_without_address_fails_check_witness :
  Mailer.checkForVendorResponses
    (Returned [Samples.reply "Sales@Bolt.example"; Samples.reply "sales@acme.example"])
    [VStr "sales@acme.example"; VUndefined]
  = Returned {| Mailer.checked := false; Mailer.responses := None;
                Mailer.checkError := Some type_error |}
  /\ Mailer.checkForVendorResponses (Returned [])
       [VStr "sales@acme.example"; VUndefined]
     = Returned {| Mailer.checked := true; Mailer.responses := Some [];
                   Mailer.checkError := None |}.
Proof.
  apply (vendor_without_address_fails_check ["sales@acme.example"] VUndefined []).
  - intros s E. discriminate E.
  - reflexivity.
Defined.

Lemma service_send_loop_witness :
  exists mails results,
    @Mailer.sendRFPToVendors Samples.transport
       [Samples.acme_recipient; Samples.bolt_recipient]
       (VStr "Request for proposal") (VStr "Please send your offer.")
    = (mails, Returned results)
    /\ map Mailer.to mails
       = map Mailer.email [Samples.acme_recipient; Samples.bolt_recipient]
    /\ Forall (fun m => Mailer.subject m = VStr "Request for proposal"
                        /\ Mailer.text m = VStr "Please send your offer."
                        /\ Mailer.attachments m = []) mails
    /\ map Mailer.vendorId results
       = map Mailer._id [Samples.acme_recipient; Samples.bolt_recipient]
    /\ map Mailer.vendorName results
       = map Mailer.name [Samples.acme_recipient; Samples.bolt_recipient]
    /\ map Mailer.vendorEmail results
       = map Mailer.email [Samples.acme_recipient; Samples.bolt_recipient]
    /\ Forall2 (fun m r =>
                  Mailer.result r
                  = match @Mailer.sendMail Samples.transport m with
                    | Returned id =>
                        {| Mailer.success := true; Mailer.messageId := Some id;
                           Mailer.error := None |}
                    | Threw message =>
                        {| Mailer.success := false; Mailer.messageId := None;
                           Mailer.error := Some message |}
                    | Diverged => Mailer.result r
                    end)
               mails results.
Proof.
  apply (@service_send_loop Samples.transport).
  intros m. unfold Mailer.sendMail, Samples.transport.
  destruct (Mailer.to m); try discriminate.
  destruct (String.eqb _ _); discriminate.
Defined.

Lemma service_send_without_text_witness :
  @Mailer.sendRFPToVendors Samples.transport
     [Samples.acme_recipient; Samples.bolt_recipient]
     (VStr "Request for proposal") VNull
  = ([], Returned (map (fun v =>
                          {| Mailer.vendorId := Mailer._id v;
                             Mailer.vendorName := Mailer.name v;
                             Mailer.vendorEmail := Mailer.email v;
                             Mailer.result :=
                               {| Mailer.success := false; Mailer.messageId := None;
                                  Mailer.error := Some type_error |} |})
                       [Samples.acme_recipient; Samples.bolt_recipient])).
Proof.
  apply (@service_send_without_text Samples.transport).
  intros s E. discriminate E.
Defined.


